(** * LyricLens: the client state hook, the search page and the lyrics panel

    A shallow embedding of the TypeScript client of LyricLens
    ([useLyricLens], [SearchPage], [SongGrid], [SongCard], [SearchStatus],
    [Lyrics]) and of the analysis endpoint of the backend, with the
    properties of the specification stated over it.

    Each operation of the hook is an asynchronous function; it is run here
    from its call to its last statement against an environment that says
    how the network answers, so calls in flight do not interleave. Where
    what happens during an [await] matters, the operation is taken in
    segments that may start from any state (Operations in flight). *)

From Stdlib Require Import NArith ZArith Lia.
From Stdlib Require Import Ascii String.
From stdpp Require Import base option list gmap.

Local Open Scope N_scope.

(** ** JavaScript strings and the built-ins the client calls *)

Module JS.

(** A JavaScript string is a sequence of UTF-16 code units. *)
Definition str := list N.

(** A literal of the source, written in ASCII. *)
Definition lit (s : string) : str := N_of_ascii <$> list_ascii_of_string s.

(** ToBoolean of a string: only the empty string is falsy. *)
Definition truthy (s : str) : bool :=
  match s with [] => false | _ :: _ => true end.

(** WhiteSpace and LineTerminator of ECMAScript, the code units that
    [trim] strips. *)
Definition is_white_space (c : N) : bool :=
  (c =? 0x9) || (c =? 0xA) || (c =? 0xB) || (c =? 0xC) || (c =? 0xD)
  || (c =? 0x20) || (c =? 0xA0) || (c =? 0x1680)
  || ((0x2000 <=? c) && (c <=? 0x200A))
  || (c =? 0x2028) || (c =? 0x2029) || (c =? 0x202F) || (c =? 0x205F)
  || (c =? 0x3000) || (c =? 0xFEFF).

Fixpoint trimStart (s : str) : str :=
  match s with
  | [] => []
  | c :: r => if is_white_space c then trimStart r else s
  end.

Definition trimEnd (s : str) : str := rev (trimStart (rev s)).

Definition trim (s : str) : str := trimEnd (trimStart s).

(** [encodeURIComponent]: the unreserved set is kept, every other code
    point is written as the percent-escaped octets of its UTF-8 form, and a
    lone surrogate raises URIError ([None]). *)
Definition in_range (lo hi c : N) : bool := (lo <=? c) && (c <=? hi).

Definition is_uri_unreserved (c : N) : bool :=
  in_range 65 90 c || in_range 97 122 c || in_range 48 57 c
  || (c =? 45) || (c =? 95) || (c =? 46) || (c =? 33) || (c =? 126)
  || (c =? 42) || (c =? 39) || (c =? 40) || (c =? 41).

Definition is_lead_surrogate (c : N) : bool := in_range 0xD800 0xDBFF c.
Definition is_trail_surrogate (c : N) : bool := in_range 0xDC00 0xDFFF c.

Definition code_point (lead trail : N) : N :=
  (lead - 0xD800) * 0x400 + (trail - 0xDC00) + 0x10000.

Definition utf8 (cp : N) : list N :=
  if cp <? 0x80 then [cp]
  else if cp <? 0x800 then [0xC0 + cp / 0x40; 0x80 + cp mod 0x40]
  else if cp <? 0x10000 then
    [0xE0 + cp / 0x1000; 0x80 + (cp / 0x40) mod 0x40; 0x80 + cp mod 0x40]
  else
    [0xF0 + cp / 0x40000; 0x80 + (cp / 0x1000) mod 0x40;
     0x80 + (cp / 0x40) mod 0x40; 0x80 + cp mod 0x40].

Definition hex_digit (n : N) : N := if n <? 10 then 48 + n else 55 + n.

Definition percent (octet : N) : str :=
  [37; hex_digit (octet / 16); hex_digit (octet mod 16)].

Definition escape (cp : N) : str := utf8 cp ≫= percent.

Fixpoint encodeURIComponent (s : str) : option str :=
  match s with
  | [] => Some []
  | c :: r =>
      if is_uri_unreserved c then (fun e => c :: e) <$> encodeURIComponent r
      else if is_lead_surrogate c then
        match r with
        | d :: r' =>
            if is_trail_surrogate d
            then (fun e => escape (code_point c d) ++ e) <$> encodeURIComponent r'
            else None
        | [] => None
        end
      else if is_trail_surrogate c then None
      else (fun e => escape c ++ e) <$> encodeURIComponent r
  end.

(** A value that is [undefined], [null] or present. *)
Inductive nullable (A : Type) : Type :=
| Undefined
| Null
| Value (a : A).
Arguments Undefined {A}.
Arguments Null {A}.
Arguments Value {A} a.

(** What a [throw] or a rejected promise carries, as far as the catch
    blocks look at it: [err instanceof Error ? err.message : fallback]. *)
Inductive thrown : Type :=
| ErrorInstance (message : str)
| NotAnError.

End JS.

Import JS.

(** ** The types of [@/types] *)

Module ISuggestionItem.
Record t := mk {
  title : str;
  artist : str;
  album : option str;
  preview_url : option str;
  cover_url : option str
}.
End ISuggestionItem.

Module ISong.
Record t := mk {
  id : str;
  title : str;
  artist : str;
  coverUrl : option str
}.
End ISong.

Module ILyricsAnalysis.
Record t := mk {
  summary : str;
  countries_mentioned : list str
}.
End ILyricsAnalysis.

(** ** The network *)

(** The decoded body [data] of [GET /api/song/search], seen through the
    two fields [searchSongs] reads. [SearchNull] is the JSON value [null],
    on which a property access throws; any other value is a [SearchValue]:
    its [suggestions] is an array or is anything else (absent included),
    its [error] is a string or is absent. The elements of the array are
    taken at the type [ISuggestionItem] that the callback of [map] declares
    for them, and [error] at the type [string | null] of the state it is
    stored in. *)
Inductive suggestions_field : Type :=
| SuggestionsArray (items : list ISuggestionItem.t)
| SuggestionsOther.

Inductive search_data : Type :=
| SearchNull
| SearchValue (suggestions : suggestions_field) (error : option str).

(** The decoded body of [GET /api/song/lyrics], seen through [data.lyrics]. *)
Inductive lyrics_data : Type :=
| LyricsNull
| LyricsValue (lyrics : nullable str).

(** The decoded body of [POST /api/song/analyze], stored as it is:
    [None] is the JSON value [null]. *)
Definition analysis_data : Type := option ILyricsAnalysis.t.

(** [response.json()] either rejects or yields the decoded body. *)
Inductive body (A : Type) : Type :=
| JsonRejects (e : thrown)
| Json (data : A).
Arguments JsonRejects {A} e.
Arguments Json {A} data.

(** A response, as far as the hook looks at it: its [ok] flag (status in
    200..299), its [statusText], and what [response.json()] will do. *)
Record response (A : Type) : Type := Response {
  ok : bool;
  statusText : str;
  parsed : body A
}.
Arguments Response {A} ok statusText parsed.
Arguments ok {A} r.
Arguments statusText {A} r.
Arguments parsed {A} r.

(** [fetch] either rejects (network failure) or resolves to a response. *)
Inductive fetched (A : Type) : Type :=
| FetchRejects (e : thrown)
| Resolves (r : response A).
Arguments FetchRejects {A} e.
Arguments Resolves {A} r.

Inductive http_method : Type := GET | POST.

(** The object handed to [JSON.stringify] in [analyzeLyrics]. *)
Record analyze_body := mk_analyze_body {
  track_name : str;
  artist_name : str;
  body_lyrics : str
}.

Record request := mk_request {
  method : http_method;
  url : str;
  payload : option analyze_body
}.

(** What the browser and the server do to the client: one oracle per
    endpoint, answering a request with the body read at the type the hook
    reads it at, and the messages of the errors the engine itself raises. *)
Record environment := mk_environment {
  fetch_search : request -> fetched search_data;
  fetch_lyrics : request -> fetched lyrics_data;
  fetch_analyze : request -> fetched analysis_data;
  uri_error_message : str;
  type_error_message : str
}.

(** ** The state of one [useLyricLens] instance, and a log of what it did *)

Record hook_state := mk_hook_state {
  songs : list ISong.t;
  lyrics : nullable str;
  lyricsAnalysis : option ILyricsAnalysis.t;
  isLoading : bool;
  error : option str
}.

(** [useState] initial values. *)
Definition initial_hook_state : hook_state :=
  {| songs := []; lyrics := Null; lyricsAnalysis := None;
     isLoading := false; error := None |}.

Inductive operation : Type :=
| SearchSongs (query : str)
| GetLyrics (song : ISong.t)
| AnalyzeLyrics (song : ISong.t) (text : str).

Inductive event : Type :=
| Invoked (op : operation)
| Fetch (r : request)
| SetSongs (l : list ISong.t)
| SetLyrics (v : nullable str)
| SetLyricsAnalysis (a : option ILyricsAnalysis.t)
| SetIsLoading (b : bool)
| SetError (e : option str).

(** The hook with its log. [history] keeps, for every event of the log,
    the state of the hook right after it: the state a render at that moment
    would read. *)
Record world := mk_world {
  hook : hook_state;
  trace : list event;
  history : list hook_state
}.

Definition initial_world : world :=
  {| hook := initial_hook_state; trace := []; history := [] |}.

(** ** Asynchronous functions: state, the environment and exceptions *)

Inductive outcome (A : Type) : Type :=
| Returned (a : A)
| Threw (e : thrown).
Arguments Returned {A} a.
Arguments Threw {A} e.

(** A computation over a state [St]: it reads the environment, updates
    the state and returns or throws. An [await] is sequencing. *)
Definition M (St A : Type) : Type := environment -> St -> outcome A * St.

Section Monad.
Context {St : Type}.

Definition ret {A} (a : A) : M St A := fun _ s => (Returned a, s).

Definition bind {A B} (m : M St A) (k : A -> M St B) : M St B :=
  fun env s =>
    match m env s with
    | (Returned a, s') => k a env s'
    | (Threw e, s') => (Threw e, s')
    end.

Definition throw {A} (e : thrown) : M St A := fun _ s => (Threw e, s).

Definition ask : M St environment := fun env s => (Returned env, s).

Definition get : M St St := fun _ s => (Returned s, s).

Definition modify (f : St -> St) : M St unit := fun _ s => (Returned (), f s).

(** [try { block } catch (err) { handler }] *)
Definition try_catch {A} (block : M St A) (handler : thrown -> M St A) : M St A :=
  fun env s =>
    match block env s with
    | (Returned a, s') => (Returned a, s')
    | (Threw e, s') => handler e env s'
    end.

(** [try { block } finally { finalizer }]: the finalizer runs on both
    paths, and the outcome of the block stands unless the finalizer throws. *)
Definition try_finally {A} (block : M St A) (finalizer : M St unit) : M St A :=
  fun env s =>
    let '(r, s1) := block env s in
    match finalizer env s1 with
    | (Returned _, s2) => (r, s2)
    | (Threw e, s2) => (Threw e, s2)
    end.

Definition try_catch_finally {A}
    (block : M St A) (handler : thrown -> M St A) (finalizer : M St unit) : M St A :=
  try_finally (try_catch block handler) finalizer.

(** [if (c) { m }] *)
Definition when (c : bool) (m : M St unit) : M St unit :=
  if c then m else ret ().
End Monad.

#[global] Instance M_ret {St} : MRet (M St) := @ret St.
#[global] Instance M_bind {St} : MBind (M St) := fun A B k m => bind m k.

(** Running a computation of a part of the state inside the whole. *)
Definition zoom {St Sub A} (view : St -> Sub) (update : Sub -> St -> St)
    (m : M Sub A) : M St A :=
  fun env s => let '(r, sub) := m env (view s) in (r, update sub s).

(** ** [useLyricLens] *)

Definition log (e : event) (w : world) : world :=
  {| hook := hook w;
     trace := trace w ++ [e];
     history := history w ++ [hook w] |}.

Definition invoked (op : operation) : M world unit := modify (log (Invoked op)).

Definition setSongs (l : list ISong.t) : M world unit :=
  modify (fun w =>
    log (SetSongs l)
      {| hook := {| songs := l; lyrics := lyrics (hook w);
                    lyricsAnalysis := lyricsAnalysis (hook w);
                    isLoading := isLoading (hook w); error := error (hook w) |};
         trace := trace w; history := history w |}).

Definition setLyrics (v : nullable str) : M world unit :=
  modify (fun w =>
    log (SetLyrics v)
      {| hook := {| songs := songs (hook w); lyrics := v;
                    lyricsAnalysis := lyricsAnalysis (hook w);
                    isLoading := isLoading (hook w); error := error (hook w) |};
         trace := trace w; history := history w |}).

Definition setLyricsAnalysis (a : option ILyricsAnalysis.t) : M world unit :=
  modify (fun w =>
    log (SetLyricsAnalysis a)
      {| hook := {| songs := songs (hook w); lyrics := lyrics (hook w);
                    lyricsAnalysis := a;
                    isLoading := isLoading (hook w); error := error (hook w) |};
         trace := trace w; history := history w |}).

Definition setIsLoading (b : bool) : M world unit :=
  modify (fun w =>
    log (SetIsLoading b)
      {| hook := {| songs := songs (hook w); lyrics := lyrics (hook w);
                    lyricsAnalysis := lyricsAnalysis (hook w);
                    isLoading := b; error := error (hook w) |};
         trace := trace w; history := history w |}).

Definition setError (e : option str) : M world unit :=
  modify (fun w =>
    log (SetError e)
      {| hook := {| songs := songs (hook w); lyrics := lyrics (hook w);
                    lyricsAnalysis := lyricsAnalysis (hook w);
                    isLoading := isLoading (hook w); error := e |};
         trace := trace w; history := history w |}).

(** [encodeURIComponent(s)] inside a template literal. *)
Definition encoded (s : str) : M world str :=
  env ← ask;
  match encodeURIComponent s with
  | Some e => mret e
  | None => throw (ErrorInstance (uri_error_message env))
  end.

(** [await fetch(...)] *)
Definition fetch {A} (endpoint : environment -> request -> fetched A)
    (r : request) : M world (response A) :=
  env ← ask;
  modify (log (Fetch r));;
  match endpoint env r with
  | FetchRejects e => throw e
  | Resolves response => mret response
  end.

(** [await response.json()] *)
Definition json {A} (response : response A) : M world A :=
  match parsed response with
  | Json data => mret data
  | JsonRejects e => throw e
  end.

(** [if (!response.ok) throw new Error(`Error: ${response.statusText}`)] *)
Definition check_ok {A} (response : response A) : M world unit :=
  when (negb (ok response))
    (throw (ErrorInstance (lit "Error: " ++ statusText response))).

(** [err instanceof Error ? err.message : fallback] *)
Definition message_of (err : thrown) (fallback : str) : str :=
  match err with
  | ErrorInstance message => message
  | NotAnError => fallback
  end.

(** The callback of [data.suggestions.map]. *)
Definition toSong (song : ISuggestionItem.t) : ISong.t :=
  {| ISong.id := ISuggestionItem.title song ++ lit "-" ++ ISuggestionItem.artist song;
     ISong.title := ISuggestionItem.title song;
     ISong.artist := ISuggestionItem.artist song;
     ISong.coverUrl := ISuggestionItem.cover_url song |}.

(** [data.suggestions] and [data.error]: reading a property of [null]
    throws a TypeError. *)
Definition data_suggestions (data : search_data) : M world suggestions_field :=
  match data with
  | SearchNull => env ← ask; throw (ErrorInstance (type_error_message env))
  | SearchValue suggestions _ => mret suggestions
  end.

Definition data_error (data : search_data) : M world (option str) :=
  match data with
  | SearchNull => env ← ask; throw (ErrorInstance (type_error_message env))
  | SearchValue _ e => mret e
  end.

Definition data_lyrics (data : lyrics_data) : M world (nullable str) :=
  match data with
  | LyricsNull => env ← ask; throw (ErrorInstance (type_error_message env))
  | LyricsValue l => mret l
  end.

(** The three requests; [q], [a] and [t] are already URI-encoded. *)
Definition search_request (q : str) : request :=
  {| method := GET;
     url := lit "http://localhost:8000/api/song/search?query=" ++ q;
     payload := None |}.

Definition lyrics_request (a t : str) : request :=
  {| method := GET;
     url := lit "http://localhost:8000/api/song/lyrics?artist_name=" ++ a
            ++ lit "&track_name=" ++ t;
     payload := None |}.

Definition analyze_request (song : ISong.t) (text : str) : request :=
  {| method := POST;
     url := lit "http://localhost:8000/api/song/analyze";
     payload := Some {| track_name := ISong.title song;
                        artist_name := ISong.artist song;
                        body_lyrics := text |} |}.

Definition searchSongs (query : str) : M world unit :=
  invoked (SearchSongs query);;
  setIsLoading true;;
  setError None;;
  try_catch_finally
    (q ← encoded query;
     response ← fetch fetch_search (search_request q);
     check_ok response;;
     data ← json response;
     suggestions ← data_suggestions data;
     match suggestions with
     | SuggestionsArray items => setSongs (toSong <$> items)
     | SuggestionsOther =>
         setSongs [];;
         e ← data_error data;
         match e with
         | Some s => when (truthy s) (setError (Some s))
         | None => mret ()
         end
     end)
    (fun err =>
       setError (Some (message_of err
         (lit "An error occurred while searching for songs")));;
       setSongs [])
    (setIsLoading false).

Definition getLyrics (song : ISong.t) : M world unit :=
  invoked (GetLyrics song);;
  setIsLoading true;;
  setError None;;
  try_catch_finally
    (a ← encoded (ISong.artist song);
     t ← encoded (ISong.title song);
     response ← fetch fetch_lyrics (lyrics_request a t);
     check_ok response;;
     data ← json response;
     l ← data_lyrics data;
     setLyrics l)
    (fun err =>
       setError (Some (message_of err
         (lit "An error occurred while fetching lyrics"))))
    (setIsLoading false).

Definition analyzeLyrics (song : ISong.t) (text : str) : M world unit :=
  invoked (AnalyzeLyrics song text);;
  setIsLoading true;;
  setError None;;
  try_catch_finally
    (response ← fetch fetch_analyze (analyze_request song text);
     check_ok response;;
     data ← json response;
     setLyricsAnalysis data)
    (fun err =>
       setError (Some (message_of err
         (lit "An error occurred while analyzing lyrics"))))
    (setIsLoading false).

(** The operations the hook returns, by name. *)
Definition run (op : operation) : M world unit :=
  match op with
  | SearchSongs query => searchSongs query
  | GetLyrics song => getLyrics song
  | AnalyzeLyrics song text => analyzeLyrics song text
  end.

(** The message each catch block falls back to. *)
Definition fallback (op : operation) : str :=
  match op with
  | SearchSongs _ => lit "An error occurred while searching for songs"
  | GetLyrics _ => lit "An error occurred while fetching lyrics"
  | AnalyzeLyrics _ _ => lit "An error occurred while analyzing lyrics"
  end.

(** ** [SearchStatus], [SongCard] and [SongGrid] *)

(** ToBoolean of a [string | null]. *)
Definition truthy_error (e : option str) : bool :=
  match e with
  | Some s => truthy s
  | None => false
  end.

Record status_view := mk_status_view {
  searching : bool;
  shown_error : option str
}.

(** [null] when there is nothing to show. *)
Definition SearchStatus (isLoading : bool) (error : option str) : option status_view :=
  if negb isLoading && negb (truthy_error error) then None
  else Some {| searching := isLoading;
               shown_error := if truthy_error error then error else None |}.

(** The song a card hands to [onClick]: [id.toString()] of a string is
    the string. *)
Definition SongCard_handleClick (props : ISong.t) : ISong.t :=
  {| ISong.id := ISong.id props; ISong.title := ISong.title props;
     ISong.artist := ISong.artist props; ISong.coverUrl := ISong.coverUrl props |}.

Inductive grid_view : Type :=
| Skeleton
| EmptyMessage (message : str)
| Cards (cards : list ISong.t).

Definition SongGrid (songs : list ISong.t) (isLoading : bool) (emptyMessage : str)
    : grid_view :=
  if isLoading then Skeleton
  else if (length songs =? 0)%nat then EmptyMessage emptyMessage
  else Cards songs.

(** The grid items on screen. *)
Definition grid_items (g : option grid_view) : list ISong.t :=
  match g with
  | Some (Cards cards) => cards
  | _ => []
  end.

(** ** [SearchPage] *)

Record page_state := mk_page_state {
  query : str;
  selectedSong : option ISong.t;
  page_hook : world
}.

Definition initial_page_state : page_state :=
  {| query := []; selectedSong := None; page_hook := initial_world |}.

Definition setQuery (q : str) : M page_state unit :=
  modify (fun s => {| query := q; selectedSong := selectedSong s;
                      page_hook := page_hook s |}).

Definition setSelectedSong (v : option ISong.t) : M page_state unit :=
  modify (fun s => {| query := query s; selectedSong := v;
                      page_hook := page_hook s |}).

Definition with_page_hook (w : world) (s : page_state) : page_state :=
  {| query := query s; selectedSong := selectedSong s; page_hook := w |}.

Definition handleSearch (searchQuery : str) : M page_state unit :=
  setQuery searchQuery;;
  if negb (truthy (trim searchQuery)) then mret ()
  else
    setSelectedSong None;;
    zoom page_hook with_page_hook (searchSongs searchQuery).

Definition handleSongClick (song : ISong.t) : M page_state unit :=
  setSelectedSong (Some song).

(** The [onBack] passed to [Lyrics]. *)
Definition onBack : M page_state unit := setSelectedSong None.

Definition quote : str := [34].

Record page_view := mk_page_view {
  status : option status_view;
  heading : option str;
  lyrics_panel : option ISong.t;
  grid : option grid_view
}.

Definition SearchPage (s : page_state) : page_view :=
  let h := hook (page_hook s) in
  {| status := SearchStatus (isLoading h) (error h);
     heading :=
       if truthy (query s) && negb (isLoading h) && negb (truthy_error (error h))
          && negb (bool_decide (is_Some (selectedSong s)))
       then Some (if (0 <? length (songs h))%nat
                  then lit "Results for " ++ quote ++ query s ++ quote
                  else lit "No results found for " ++ quote ++ query s ++ quote)
       else None;
     lyrics_panel := selectedSong s;
     grid :=
       match selectedSong s with
       | Some _ => None
       | None => Some (SongGrid (songs h) (isLoading h)
                         (lit "No songs found. Try another search term."))
       end |}.

(** The two views of the page. *)
Inductive view_state : Type := browsing | viewingSong.

Definition view_of (s : page_state) : view_state :=
  match selectedSong s with
  | None => browsing
  | Some _ => viewingSong
  end.

(** What the user can do, and when the rendered page offers it: the search
    form is always there, a card only in a rendered grid, the back arrow only
    in the lyrics panel. *)
Inductive action : Type :=
| Submit (q : str)
| ClickCard (song : ISong.t)
| PressBack.

Definition offered (v : page_view) (a : action) : Prop :=
  match a with
  | Submit _ => True
  | ClickCard song => In song (grid_items (grid v))
  | PressBack => is_Some (lyrics_panel v)
  end.

Definition perform (a : action) : M page_state unit :=
  match a with
  | Submit q => handleSearch q
  | ClickCard song => handleSongClick (SongCard_handleClick song)
  | PressBack => onBack
  end.

(** One step of the page: an offered action, its handler run to the end. *)
Definition step (env : environment) (s : page_state) (a : action) (s' : page_state) : Prop :=
  offered (SearchPage s) a /\ snd (perform a env s) = s'.

(** ** [Lyrics] *)

Record lyrics_state := mk_lyrics_state {
  lyrics_hook : world;
  isLyricsLoading : bool;
  isAnalysisLoading : bool
}.

Definition initial_lyrics_state : lyrics_state :=
  {| lyrics_hook := initial_world; isLyricsLoading := false;
     isAnalysisLoading := false |}.

Definition setIsLyricsLoading (b : bool) : M lyrics_state unit :=
  modify (fun s => {| lyrics_hook := lyrics_hook s; isLyricsLoading := b;
                      isAnalysisLoading := isAnalysisLoading s |}).

Definition setIsAnalysisLoading (b : bool) : M lyrics_state unit :=
  modify (fun s => {| lyrics_hook := lyrics_hook s;
                      isLyricsLoading := isLyricsLoading s;
                      isAnalysisLoading := b |}).

Definition with_lyrics_hook (w : world) (s : lyrics_state) : lyrics_state :=
  {| lyrics_hook := w; isLyricsLoading := isLyricsLoading s;
     isAnalysisLoading := isAnalysisLoading s |}.

(** The first effect; the prop [song] is an object, so [if (song)] holds. *)
Definition fetchLyrics (song : ISong.t) : M lyrics_state unit :=
  setIsLyricsLoading true;;
  zoom lyrics_hook with_lyrics_hook (getLyrics song);;
  setIsLyricsLoading false.

(** The second effect, with the [lyrics] of the render it was created in. *)
Definition fetchAnalysis (song : ISong.t) (rendered : nullable str) : M lyrics_state unit :=
  match rendered with
  | Value text =>
      when (truthy text)
        (setIsAnalysisLoading true;;
         zoom lyrics_hook with_lyrics_hook (analyzeLyrics song text);;
         setIsAnalysisLoading false)
  | Null | Undefined => mret ()
  end.

(** [Object.is] on the dependency [lyrics]. *)
Definition same_value (a b : nullable str) : bool :=
  match a, b with
  | Undefined, Undefined => true
  | Null, Null => true
  | Value x, Value y => bool_decide (x = y)
  | _, _ => false
  end.

(** Renders after the first: the prop [song] stays, so the first effect
    does not run again; the second runs when [lyrics] differs from the
    [lyrics] of the render before. *)
Fixpoint rerender (renders : nat) (song : ISong.t) (previous : nullable str)
    : M lyrics_state unit :=
  match renders with
  | O => mret ()
  | S renders' =>
      s ← get;
      let current := lyrics (hook (lyrics_hook s)) in
      if same_value previous current then mret ()
      else fetchAnalysis song current;; rerender renders' song current
  end.

(** One selection: the panel is mounted with fresh state, both effects
    run after the first render, then the panel re-renders as its state
    changes. The second effect of the first render sees the initial
    [lyrics], which is [null], and does nothing, so its place relative to
    the fetch that the first effect started does not matter. The page
    renders the panel only while a song is selected and offers no card
    then, so the prop [song] of a mounted panel never changes. *)
Definition Lyrics (renders : nat) (song : ISong.t) : M lyrics_state unit :=
  modify (fun _ => initial_lyrics_state);;
  fetchLyrics song;;
  fetchAnalysis song (lyrics initial_hook_state);;
  rerender renders song (lyrics initial_hook_state).

(** ToBoolean of the [lyrics] of the hook: a string that is not empty. *)
Definition truthy_lyrics (v : nullable str) : bool :=
  match v with
  | Value text => truthy text
  | Null | Undefined => false
  end.

(** How often an operation of the hook was invoked, from its log. *)
Definition is_getLyrics (e : event) : bool :=
  match e with Invoked (GetLyrics _) => true | _ => false end.

Definition is_analyzeLyrics (e : event) : bool :=
  match e with Invoked (AnalyzeLyrics _ _) => true | _ => false end.

Definition is_fetch (e : event) : bool :=
  match e with Fetch _ => true | _ => false end.

Definition count (p : event -> bool) (t : list event) : nat :=
  length (List.filter p t).

(** ** The analysis endpoint of the backend *)

Module Backend.

(** What the external AI collaborator answers. *)
Inductive ai_reply : Type :=
| Analysis (a : ILyricsAnalysis.t)
| AiFailure (message : str).

(** What [POST /api/song/analyze] answers. *)
Inductive reply : Type :=
| Ok200 (a : ILyricsAnalysis.t)
| ErrorReply (message : str).

(** A cache entry and the time at which the store evicts it. *)
Record entry := mk_entry {
  value : ILyricsAnalysis.t;
  expires : N
}.

Record server := mk_server {
  cache : gmap (list N * list N) entry;
  ai_calls : nat
}.

(** The cache key of a request: track and artist. *)
Definition key_of (req : analyze_body) : list N * list N :=
  (track_name req, artist_name req).

(** A read of the store at time [now]: an expired entry is gone. *)
Definition cache_get (now : N) (k : list N * list N)
    (c : gmap (list N * list N) entry) : option ILyricsAnalysis.t :=
  match c !! k with
  | Some e => if now <? expires e then Some (value e) else None
  | None => None
  end.

(** The entry of [k] is in the store and not yet evicted at [now]. *)
Definition live (now : N) (k : list N * list N)
    (c : gmap (list N * list N) entry) : Prop :=
  exists e, c !! k = Some e /\ now < expires e.

Section Analyze.
(** The time to live of an entry, and the collaborator: its answer to
    its [n]-th invocation may differ from call to call. *)
Variable ttl : N.
Variable ai : nat -> analyze_body -> ai_reply.

(** Modelled from the spec: the handler of [POST /api/song/analyze],
    which is not among the sources. It checks the cache for an analysis
    keyed by track and artist; on a miss it calls the external AI
    collaborator, stores the result in the cache with the time to live,
    and returns it; a failure of the collaborator surfaces as an error
    string and stores nothing. *)
Definition analyze (now : N) (req : analyze_body) (s : server) : reply * server :=
  match cache_get now (key_of req) (cache s) with
  | Some a => (Ok200 a, s)
  | None =>
      match ai (ai_calls s) req with
      | Analysis a =>
          (Ok200 a,
           {| cache := <[key_of req := {| value := a; expires := now + ttl |}]> (cache s);
              ai_calls := S (ai_calls s) |})
      | AiFailure message =>
          (ErrorReply message,
           {| cache := cache s; ai_calls := S (ai_calls s) |})
      end
  end.
End Analyze.

End Backend.

(** ** Failures *)

(** The failures of one request that are raised inside the [try] block,
    with what is thrown: the network fails, the status is not 2xx, the body
    does not parse. *)
Inductive transport_failure {A : Type} : fetched A -> thrown -> Prop :=
| network_failure e :
    transport_failure (FetchRejects e) e
| bad_status st js :
    transport_failure (Resolves (Response false st js))
      (ErrorInstance (lit "Error: " ++ st))
| unparseable_body st e :
    transport_failure (Resolves (Response true st (JsonRejects e))) e.

(** The failures of an operation in an environment. Besides those of the
    request, the address may not encode, and the body may be [null] where
    a field of it is read. *)
Inductive failure (env : environment) : operation -> thrown -> Prop :=
| search_uri_error query :
    encodeURIComponent query = None ->
    failure env (SearchSongs query) (ErrorInstance (uri_error_message env))
| search_transport query q e :
    encodeURIComponent query = Some q ->
    transport_failure (fetch_search env (search_request q)) e ->
    failure env (SearchSongs query) e
| search_null_body query q st :
    encodeURIComponent query = Some q ->
    fetch_search env (search_request q) = Resolves (Response true st (Json SearchNull)) ->
    failure env (SearchSongs query) (ErrorInstance (type_error_message env))
| lyrics_uri_error song :
    encodeURIComponent (ISong.artist song) = None
    \/ encodeURIComponent (ISong.title song) = None ->
    failure env (GetLyrics song) (ErrorInstance (uri_error_message env))
| lyrics_transport song a t e :
    encodeURIComponent (ISong.artist song) = Some a ->
    encodeURIComponent (ISong.title song) = Some t ->
    transport_failure (fetch_lyrics env (lyrics_request a t)) e ->
    failure env (GetLyrics song) e
| lyrics_null_body song a t st :
    encodeURIComponent (ISong.artist song) = Some a ->
    encodeURIComponent (ISong.title song) = Some t ->
    fetch_lyrics env (lyrics_request a t) = Resolves (Response true st (Json LyricsNull)) ->
    failure env (GetLyrics song) (ErrorInstance (type_error_message env))
| analyze_transport song text e :
    transport_failure (fetch_analyze env (analyze_request song text)) e ->
    failure env (AnalyzeLyrics song text) e.

(** The state a failed operation leaves behind, given the message. *)
Definition after_failure (op : operation) (h : hook_state) (message : str) : hook_state :=
  {| songs := match op with SearchSongs _ => [] | _ => songs h end;
     lyrics := lyrics h;
     lyricsAnalysis := lyricsAnalysis h;
     isLoading := false;
     error := Some message |}.

(** ** Sample data *)

Module Sample.

Definition bohemian : ISuggestionItem.t :=
  {| ISuggestionItem.title := lit "Bohemian Rhapsody";
     ISuggestionItem.artist := lit "Queen";
     ISuggestionItem.album := Some (lit "A Night at the Opera");
     ISuggestionItem.preview_url := None;
     ISuggestionItem.cover_url := Some (lit "https://img.example/opera.jpg") |}.

Definition song : ISong.t := toSong bohemian.

Definition analysis : ILyricsAnalysis.t :=
  {| ILyricsAnalysis.summary := lit "A confession.";
     ILyricsAnalysis.countries_mentioned := [] |}.

(** The answer 200 OK with a body that parses to [data]. *)
Definition answers {A} (data : A) : fetched A :=
  Resolves (Response true (lit "OK") (Json data)).

(** Every request is answered as the backend documents it. *)
Definition server_up : environment :=
  {| fetch_search := fun _ => answers (SearchValue (SuggestionsArray [bohemian]) None);
     fetch_lyrics := fun _ => answers (LyricsValue (Value (lit "Is this the real life?")));
     fetch_analyze := fun _ => answers (Some analysis);
     uri_error_message := lit "URI malformed";
     type_error_message := lit "Cannot read properties of null" |}.

(** No request reaches the server. *)
Definition offline : environment :=
  {| fetch_search := fun _ => FetchRejects (ErrorInstance (lit "Failed to fetch"));
     fetch_lyrics := fun _ => FetchRejects (ErrorInstance (lit "Failed to fetch"));
     fetch_analyze := fun _ => FetchRejects (ErrorInstance (lit "Failed to fetch"));
     uri_error_message := lit "URI malformed";
     type_error_message := lit "Cannot read properties of null" |}.

(** The server answers 200 with the body [{}]. *)
Definition empty_object : environment :=
  {| fetch_search := fun _ => answers (SearchValue SuggestionsOther None);
     fetch_lyrics := fun _ => answers (LyricsValue Undefined);
     fetch_analyze := fun _ => answers (Some analysis);
     uri_error_message := lit "URI malformed";
     type_error_message := lit "Cannot read properties of null" |}.

(** The lyrics service knows the song and has no words for it. *)
Definition instrumental : environment :=
  {| fetch_search := fetch_search server_up;
     fetch_lyrics := fun _ => answers (LyricsValue (Value []));
     fetch_analyze := fetch_analyze server_up;
     uri_error_message := lit "URI malformed";
     type_error_message := lit "Cannot read properties of null" |}.

(** The search service finds nothing. *)
Definition no_match : environment :=
  {| fetch_search := fun _ => answers (SearchValue (SuggestionsArray []) None);
     fetch_lyrics := fetch_lyrics server_up;
     fetch_analyze := fetch_analyze server_up;
     uri_error_message := lit "URI malformed";
     type_error_message := lit "Cannot read properties of null" |}.

(** A hook that holds the results of an earlier search. *)
Definition after_search : world :=
  {| hook := {| songs := [song]; lyrics := Null; lyricsAnalysis := None;
                isLoading := false; error := None |};
     trace := []; history := [] |}.

(** The page while the user looks at a song. *)
Definition viewing : page_state :=
  {| query := lit "Bohemian Rhapsody"; selectedSong := Some song;
     page_hook := after_search |}.

(** The page after a search that found nothing. *)
Definition nothing_found : page_state :=
  snd (handleSearch (lit "zzzz") no_match initial_page_state).

(** A collaborator that never gives the same summary twice: its
    [n]-th answer has a summary of [n] letters. *)
Definition moody_ai (n : nat) (req : analyze_body) : Backend.ai_reply :=
  Backend.Analysis
    {| ILyricsAnalysis.summary := replicate n 97;
       ILyricsAnalysis.countries_mentioned := [] |}.

Definition analyze_bohemian : analyze_body :=
  {| track_name := lit "Bohemian Rhapsody"; artist_name := lit "Queen";
     body_lyrics := lit "Is this the real life?" |}.

(** A server that has cached nothing and has not called the collaborator. *)
Definition cold : Backend.server :=
  {| Backend.cache := ∅; Backend.ai_calls := 0 |}.

End Sample.

(** ** The card and the panel on screen *)

(** The cover of a card: the image when [coverUrl] is truthy, the music
    icon otherwise. *)
Inductive cover_view : Type :=
| CoverImage (src alt : str)
| MusicIcon.

Record card_view := mk_card_view {
  cover : cover_view;
  card_title : str;
  card_artist : str
}.

Definition SongCard (props : ISong.t) : card_view :=
  {| cover :=
       match ISong.coverUrl props with
       | Some u =>
           if truthy u
           then CoverImage u (ISong.title props ++ lit " by " ++ ISong.artist props)
           else MusicIcon
       | None => MusicIcon
       end;
     card_title := ISong.title props;
     card_artist := ISong.artist props |}.

(** The lyrics column of the panel. *)
Inductive lyrics_column : Type :=
| LoadingLyrics
| LyricsText (text : str).

(** The countries of an analysis: the list, or the sentence that replaces
    an empty one. *)
Inductive countries_view : Type :=
| CountryList (countries : list str)
| NoCountries.

(** The analysis column of the panel. *)
Inductive analysis_column : Type :=
| Analyzing
| AnalysisShown (summary : str) (countries : countries_view)
| NoAnalysis.

Record lyrics_view := mk_lyrics_view {
  panel_title : str;
  panel_artist : str;
  error_box : option str;
  lyrics_shown : lyrics_column;
  analysis_shown : analysis_column
}.

(** What [Lyrics] returns, as a function of its prop and its state. *)
Definition Lyrics_view (song : ISong.t) (s : lyrics_state) : lyrics_view :=
  let h := hook (lyrics_hook s) in
  {| panel_title := ISong.title song;
     panel_artist := ISong.artist song;
     error_box := if truthy_error (error h) then error h else None;
     lyrics_shown :=
       if isLyricsLoading s then LoadingLyrics
       else LyricsText
              match lyrics h with
              | Value text => if truthy text then text else lit "No lyrics available"
              | Null | Undefined => lit "No lyrics available"
              end;
     analysis_shown :=
       if isAnalysisLoading s then Analyzing
       else match lyricsAnalysis h with
            | Some a =>
                AnalysisShown (ILyricsAnalysis.summary a)
                  (if (0 <? length (ILyricsAnalysis.countries_mentioned a))%nat
                   then CountryList (ILyricsAnalysis.countries_mentioned a)
                   else NoCountries)
            | None => NoAnalysis
            end |}.

(** ** Reading the log *)

(** The requests of a log, in the order they were sent. *)
Fixpoint requests (t : list event) : list request :=
  match t with
  | [] => []
  | Fetch r :: t' => r :: requests t'
  | _ :: t' => requests t'
  end.

Definition is_searchSongs (e : event) : bool :=
  match e with Invoked (SearchSongs _) => true | _ => false end.

Definition is_invoked (e : event) : bool :=
  match e with Invoked _ => true | _ => false end.

(** The requests an operation sends in an environment: one, unless the
    address does not encode. *)
Definition requests_of (op : operation) : list request :=
  match op with
  | SearchSongs query =>
      match encodeURIComponent query with
      | Some q => [search_request q]
      | None => []
      end
  | GetLyrics song =>
      match encodeURIComponent (ISong.artist song),
            encodeURIComponent (ISong.title song) with
      | Some a, Some t => [lyrics_request a t]
      | _, _ => []
      end
  | AnalyzeLyrics song text => [analyze_request song text]
  end.

(** A code unit that may stand in the query part of an address as it is:
    an unreserved character or the percent sign of an escape. *)
Definition url_safe (c : N) : Prop := is_uri_unreserved c = true \/ c = 37.

(** A code unit that is no half of a surrogate pair. *)
Definition no_surrogate (c : N) : Prop :=
  is_lead_surrogate c = false /\ is_trail_surrogate c = false.

(** More sample data. *)
Module Fixture.

(** Two suggestions that differ and yet get the same id. *)
Definition hyphen_in_title : ISuggestionItem.t :=
  {| ISuggestionItem.title := lit "Anti-Hero"; ISuggestionItem.artist := lit "X";
     ISuggestionItem.album := None; ISuggestionItem.preview_url := None;
     ISuggestionItem.cover_url := None |}.

Definition hyphen_in_artist : ISuggestionItem.t :=
  {| ISuggestionItem.title := lit "Anti"; ISuggestionItem.artist := lit "Hero-X";
     ISuggestionItem.album := None; ISuggestionItem.preview_url := None;
     ISuggestionItem.cover_url := None |}.

(** The song of [Sample.bohemian] once more, from another album. *)
Definition remaster : ISuggestionItem.t :=
  {| ISuggestionItem.title := lit "Bohemian Rhapsody";
     ISuggestionItem.artist := lit "Queen";
     ISuggestionItem.album := Some (lit "Greatest Hits");
     ISuggestionItem.preview_url := None;
     ISuggestionItem.cover_url := None |}.

(** The search and lyrics services are up, the analysis service is down. *)
Definition analysis_down : environment :=
  {| fetch_search := fetch_search Sample.server_up;
     fetch_lyrics := fetch_lyrics Sample.server_up;
     fetch_analyze := fun _ =>
       Resolves (Response false (lit "Bad Gateway") (JsonRejects NotAnError));
     uri_error_message := lit "URI malformed";
     type_error_message := lit "Cannot read properties of null" |}.

(** The search service answers 200 with an error and no suggestions. *)
Definition search_refused : environment :=
  {| fetch_search := fun _ =>
       Sample.answers (SearchValue SuggestionsOther (Some (lit "quota exceeded")));
     fetch_lyrics := fetch_lyrics Sample.server_up;
     fetch_analyze := fetch_analyze Sample.server_up;
     uri_error_message := lit "URI malformed";
     type_error_message := lit "Cannot read properties of null" |}.

(** The page with the results of a search on screen. *)
Definition results : page_state :=
  {| query := lit "Queen"; selectedSong := None;
     page_hook := Sample.after_search |}.

(** The page while a second search is in flight, the results of the first
    still in the hook. *)
Definition searching_again : page_state :=
  {| query := lit "Queen"; selectedSong := None;
     page_hook := {| hook := {| songs := [Sample.song]; lyrics := Null;
                                lyricsAnalysis := None; isLoading := true;
                                error := None |};
                     trace := []; history := [] |} |}.

(** A collaborator that fails when first called and answers from then on. *)
Definition flaky_ai (n : nat) (req : analyze_body) : Backend.ai_reply :=
  match n with
  | O => Backend.AiFailure (lit "timeout")
  | S _ => Sample.moody_ai n req
  end.

(** A server whose cache holds an analysis of the song that expires at
    time 150. *)
Definition warm : Backend.server :=
  {| Backend.cache :=
       {[ Backend.key_of Sample.analyze_bohemian
          := {| Backend.value := Sample.analysis; Backend.expires := 150 |} ]};
     Backend.ai_calls := 0 |}.

End Fixture.

(** ** Operations in flight *)

(** An asynchronous function runs in segments: from its call to its first
    [await], from the value awaited to the next [await], and so on to its
    end. Between two segments other operations of the same hook may run, so
    a segment may find the hook in any state. A segment returns what the
    function waits for, or [None] when the function has ended.

    [try { block } catch (err) { handler } finally { finalizer }] around a
    block with awaits: a segment that stops at an [await] leaves the [try]
    open; one that runs the block to its end runs the finalizer; one that
    throws runs the handler and then the finalizer, and the function has
    ended. *)
Definition try_segment {St S} (block : M St (option S))
    (handler : thrown -> M St unit) (finalizer : M St unit) : M St (option S) :=
  fun env s =>
    match block env s with
    | (Returned (Some waiting), s') => (Returned (Some waiting), s')
    | (Returned None, s') => (finalizer;; mret None) env s'
    | (Threw e, s') => (try_finally (handler e) finalizer;; mret None) env s'
    end.

(** The catch block of each operation. *)
Definition caught (op : operation) (err : thrown) : M world unit :=
  setError (Some (message_of err (fallback op)));;
  match op with
  | SearchSongs _ => setSongs []
  | GetLyrics _ | AnalyzeLyrics _ _ => mret ()
  end.

(** The argument of [fetch]; evaluating it may throw. *)
Definition address (op : operation) : M world request :=
  match op with
  | SearchSongs query =>
      q ← encoded query; mret (search_request q)
  | GetLyrics song =>
      a ← encoded (ISong.artist song);
      t ← encoded (ISong.title song);
      mret (lyrics_request a t)
  | AnalyzeLyrics song text => mret (analyze_request song text)
  end.

(** First segment: from the call to [await fetch(...)]. The request is
    sent and the operation waits for its answer. *)
Definition called (op : operation) : M world (option request) :=
  invoked op;;
  setIsLoading true;;
  setError None;;
  try_segment
    (r ← address op;
     modify (log (Fetch r));;
     mret (Some r))
    (caught op)
    (setIsLoading false).

(** Second segment: from the answer of [fetch] to [await response.json()]. *)
Definition answered {A} (op : operation) (answer : fetched A)
    : M world (option (response A)) :=
  try_segment
    (match answer with
     | FetchRejects e => throw e
     | Resolves response => check_ok response;; mret (Some response)
     end)
    (caught op)
    (setIsLoading false).

(** What [await response.json()] yields or throws. *)
Definition awaited {A} (b : body A) : M world A :=
  match b with
  | Json data => mret data
  | JsonRejects e => throw e
  end.

(** Last segment: from the parsed body to the end. *)
Definition search_parsed (query : str) (b : body search_data) : M world unit :=
  try_catch_finally
    (data ← awaited b;
     suggestions ← data_suggestions data;
     match suggestions with
     | SuggestionsArray items => setSongs (toSong <$> items)
     | SuggestionsOther =>
         setSongs [];;
         e ← data_error data;
         match e with
         | Some s => when (truthy s) (setError (Some s))
         | None => mret ()
         end
     end)
    (caught (SearchSongs query))
    (setIsLoading false).

Definition lyrics_parsed (song : ISong.t) (b : body lyrics_data) : M world unit :=
  try_catch_finally
    (data ← awaited b;
     l ← data_lyrics data;
     setLyrics l)
    (caught (GetLyrics song))
    (setIsLoading false).

Definition analysis_parsed (song : ISong.t) (text : str) (b : body analysis_data)
    : M world unit :=
  try_catch_finally
    (data ← awaited b;
     setLyricsAnalysis data)
    (caught (AnalyzeLyrics song text))
    (setIsLoading false).

(** The three segments one after the other, each answer taken from the
    environment as soon as it is awaited. *)
Definition in_one_go {A} (op : operation)
    (endpoint : environment -> request -> fetched A)
    (parsed_segment : body A -> M world unit) : M world unit :=
  waiting ← called op;
  match waiting with
  | None => mret ()
  | Some r =>
      env ← ask;
      received ← answered op (endpoint env r);
      match received with
      | None => mret ()
      | Some response => parsed_segment (parsed response)
      end
  end.

(** An effect of the panel around an operation in flight: the flag that
    the effect raised before the call is lowered after the [await] of the
    operation, that is, once the operation has ended. *)
Definition effect_segment {S} (lower : M lyrics_state unit)
    (segment : M world (option S)) : M lyrics_state (option S) :=
  waiting ← zoom lyrics_hook with_lyrics_hook segment;
  match waiting with
  | Some w => mret (Some w)
  | None => lower;; mret None
  end.

(** The first effect of [Lyrics], in segments. *)
Definition fetchLyrics_called (song : ISong.t) : M lyrics_state (option request) :=
  setIsLyricsLoading true;;
  effect_segment (setIsLyricsLoading false) (called (GetLyrics song)).

Definition fetchLyrics_answered (song : ISong.t) (answer : fetched lyrics_data)
    : M lyrics_state (option (response lyrics_data)) :=
  effect_segment (setIsLyricsLoading false) (answered (GetLyrics song) answer).

Definition fetchLyrics_parsed (song : ISong.t) (b : body lyrics_data)
    : M lyrics_state unit :=
  zoom lyrics_hook with_lyrics_hook (lyrics_parsed song b);;
  setIsLyricsLoading false.

(** * Properties *)

(** ** Evaluating the operations *)

#[local] Arguments lit : simpl never.
#[local] Arguments search_request : simpl never.
#[local] Arguments lyrics_request : simpl never.
#[local] Arguments analyze_request : simpl never.

Ltac unfold_ops :=
  unfold run, searchSongs, getLyrics, analyzeLyrics, try_catch_finally,
    try_finally, try_catch, invoked, setSongs, setLyrics, setLyricsAnalysis,
    setIsLoading, setError, encoded, fetch, check_ok, json, data_suggestions,
    data_error, data_lyrics, when, ask, get, modify, throw, log,
    mbind, mret, M_bind, M_ret, bind, ret in *.

Ltac unfold_monad :=
  unfold when, ask, get, modify, throw, mbind, mret, M_bind, M_ret, bind, ret in *.

Ltac split_cases :=
  repeat (cbn in *; try case_match; simplify_eq).

(** What is known of the environment's answers is used before any case
    is opened. *)
Ltac use_answers :=
  repeat (cbn;
          match goal with
          | H : ?l = _ |- context [?l] => rewrite H
          end);
  cbn.

Lemma run_returns env op w : fst (run op env w) = Returned ().
Proof.
  destruct op; unfold_ops; split_cases; reflexivity.
Qed.

(** ** The operations of the hook *)

(** C4. Each of [searchSongs], [getLyrics] and [analyzeLyrics], whatever the
    environment answers, starts by setting [isLoading] to [true] and then
    [error] to [null]: the hook is then in the state it started from with
    [isLoading] true and [error] null. It touches [isLoading] no more until
    its last statement, so the hook is loading in every state in between,
    the moment the request is sent included. Its last statement sets
    [isLoading] to [false], and the operation returns with the hook not
    loading. *)
Theorem loading_brackets_every_operation (env : environment) (op : operation) (w : world) :
  exists middle between,
    trace (snd (run op env w))
      = trace w ++ [Invoked op; SetIsLoading true; SetError None]
          ++ middle ++ [SetIsLoading false]
    /\ history (snd (run op env w))
       = history w
         ++ [hook w;
             {| songs := songs (hook w); lyrics := lyrics (hook w);
                lyricsAnalysis := lyricsAnalysis (hook w);
                isLoading := true; error := error (hook w) |};
             {| songs := songs (hook w); lyrics := lyrics (hook w);
                lyricsAnalysis := lyricsAnalysis (hook w);
                isLoading := true; error := None |}]
         ++ between ++ [hook (snd (run op env w))]
    /\ length between = length middle
    /\ Forall (fun e => forall b, e <> SetIsLoading b) middle
    /\ Forall (fun h => isLoading h = true) between
    /\ isLoading (hook (snd (run op env w))) = false
    /\ fst (run op env w) = Returned ().
Proof.
  destruct op; unfold_ops; split_cases;
    rewrite <- ?app_assoc; cbn;
    match goal with
    | |- exists m b, _ ++ _ :: _ :: _ :: ?rest = _
                     /\ _ ++ _ :: _ :: _ :: ?states = _ /\ _ =>
        exists (removelast rest), (removelast states)
    end; cbn;
    (split; [reflexivity |]);
    (split; [reflexivity |]);
    (split; [reflexivity |]);
    (split; [repeat constructor; discriminate |]);
    (split; [repeat constructor |]);
    split; reflexivity.
Qed.

Lemma transport_failure_inv {A} (r : fetched A) (e : thrown) :
  transport_failure r e ->
  r = FetchRejects e
  \/ (exists st js, r = Resolves (Response false st js)
                    /\ e = ErrorInstance (lit "Error: " ++ st))
  \/ (exists st, r = Resolves (Response true st (JsonRejects e))).
Proof.
  destruct 1; [left | right; left | right; right]; eauto.
Qed.

Ltac invert_transport :=
  match goal with
  | H : transport_failure _ _ |- _ =>
      apply transport_failure_inv in H;
      destruct H as [H | [(? & ? & H & ->) | (? & H)]]
  end.

(** A failure is caught: the operation returns, and leaves the state that
    [after_failure] describes with the message read off what was thrown. *)
Lemma failure_caught (env : environment) (op : operation) (e : thrown) (w : world) :
  failure env op e ->
  fst (run op env w) = Returned ()
  /\ hook (snd (run op env w)) = after_failure op (hook w) (message_of e (fallback op)).
Proof.
  intros H; split; [apply run_returns |].
  destruct H; try invert_transport;
    repeat match goal with H : _ \/ _ |- _ => destruct H end;
    unfold after_failure; unfold_ops; use_answers;
    split_cases; reflexivity.
Qed.

(** C7, as amended. Every failure that is raised inside an operation (the
    address does not encode, the network fails, the status is not 2xx, the
    body does not parse, the body is [null]) is caught there: the operation
    returns, [error] holds the message of what was thrown, or the fallback
    of the operation when that is no Error, and the state left behind
    depends on the failure through that message alone. *)
Theorem raised_failures_become_messages
    (env : environment) (op : operation) (e : thrown) (w : world) :
  failure env op e ->
  fst (run op env w) = Returned ()
  /\ error (hook (snd (run op env w))) = Some (message_of e (fallback op))
  /\ hook (snd (run op env w)) = after_failure op (hook w) (message_of e (fallback op)).
Proof.
  intros H. destruct (failure_caught env op e w H) as [Hret Hst].
  rewrite Hst. auto.
Qed.

Lemma raised_failures_become_messages_witness :
  failure Sample.offline (GetLyrics Sample.song) (ErrorInstance (lit "Failed to fetch"))
  /\ error (hook (snd (run (GetLyrics Sample.song) Sample.offline initial_world)))
     = Some (lit "Failed to fetch").
Proof.
  assert (H : failure Sample.offline (GetLyrics Sample.song)
                (ErrorInstance (lit "Failed to fetch"))).
  { eapply lyrics_transport; [reflexivity | reflexivity | apply network_failure]. }
  split; [exact H |].
  exact (proj1 (proj2 (raised_failures_become_messages Sample.offline
                         (GetLyrics Sample.song) _ initial_world H))).
Defined.

(** C7, as stated, fails: a response with status 200 whose body has the
    wrong shape (here [{}], neither suggestions nor lyrics) is not a failure
    to the hook. [searchSongs] and [getLyrics] return with [error] still
    [null]. *)
Lemma unexpected_shape_sets_no_error :
  fetch_search Sample.empty_object (search_request (lit "abc"))
    = Resolves (Response true (lit "OK") (Json (SearchValue SuggestionsOther None)))
  /\ error (hook (snd (run (SearchSongs (lit "abc")) Sample.empty_object initial_world)))
     = None
  /\ fetch_lyrics Sample.empty_object (lyrics_request (lit "Queen") (lit "Bohemian%20Rhapsody"))
    = Resolves (Response true (lit "OK") (Json (LyricsValue Undefined)))
  /\ error (hook (snd (run (GetLyrics Sample.song) Sample.empty_object initial_world)))
     = None.
Proof.
  repeat split; reflexivity.
Qed.

(** ** Search results *)

(** C1. When the search answers with a suggestions array, [searchSongs]
    stores one song per suggestion, in order: its [id] is the title, a
    hyphen and the artist, its [title] and [artist] are the suggestion's,
    its [coverUrl] is the suggestion's [cover_url]. *)
Theorem search_maps_each_suggestion
    (env : environment) (query q st : str)
    (items : list ISuggestionItem.t) (err : option str) (w : world) :
  encodeURIComponent query = Some q ->
  fetch_search env (search_request q)
    = Resolves (Response true st (Json (SearchValue (SuggestionsArray items) err))) ->
  Forall2
    (fun (item : ISuggestionItem.t) (song : ISong.t) =>
       ISong.id song
         = ISuggestionItem.title item ++ lit "-" ++ ISuggestionItem.artist item
       /\ ISong.title song = ISuggestionItem.title item
       /\ ISong.artist song = ISuggestionItem.artist item
       /\ ISong.coverUrl song = ISuggestionItem.cover_url item)
    items
    (songs (hook (snd (searchSongs query env w)))).
Proof.
  intros Hq Hr. unfold_ops. use_answers. clear Hr.
  induction items as [| item items IH]; cbn; constructor;
    [repeat split | exact IH].
Qed.

Lemma search_maps_each_suggestion_witness :
  Forall2
    (fun (item : ISuggestionItem.t) (song : ISong.t) =>
       ISong.id song
         = ISuggestionItem.title item ++ lit "-" ++ ISuggestionItem.artist item
       /\ ISong.title song = ISuggestionItem.title item
       /\ ISong.artist song = ISuggestionItem.artist item
       /\ ISong.coverUrl song = ISuggestionItem.cover_url item)
    [Sample.bohemian]
    (songs (hook (snd (searchSongs (lit "Bohemian Rhapsody") Sample.server_up
                         initial_world)))).
Proof.
  apply (search_maps_each_suggestion Sample.server_up (lit "Bohemian Rhapsody")
           (lit "Bohemian%20Rhapsody") (lit "OK") [Sample.bohemian] None initial_world);
    reflexivity.
Defined.

(** The example of the specification: the derived id. *)
Example bohemian_rhapsody_id :
  ISong.id <$> songs (hook (snd (searchSongs (lit "Bohemian Rhapsody")
                                   Sample.server_up initial_world)))
  = [lit "Bohemian Rhapsody-Queen"].
Proof. reflexivity. Qed.

(** A page whose hook holds no song shows no card. *)
Lemma no_songs_no_cards (s : page_state) :
  songs (hook (page_hook s)) = [] -> grid_items (grid (SearchPage s)) = [].
Proof.
  intros H. unfold SearchPage, SongGrid. cbn. rewrite H.
  destruct (selectedSong s), (isLoading (hook (page_hook s))); reflexivity.
Qed.

(** C9. After a failed search, and after an answer without a suggestions
    array, [songs] is empty, whatever an earlier search had left there, and
    the page that renders this hook shows no card. *)
Theorem failed_search_clears_songs (env : environment) (query : str) (w : world) :
  (exists e, failure env (SearchSongs query) e)
  \/ (exists q st err,
        encodeURIComponent query = Some q
        /\ fetch_search env (search_request q)
           = Resolves (Response true st (Json (SearchValue SuggestionsOther err)))) ->
  songs (hook (snd (searchSongs query env w))) = []
  /\ forall typed selected,
       grid_items (grid (SearchPage
         {| query := typed; selectedSong := selected;
            page_hook := snd (searchSongs query env w) |})) = [].
Proof.
  intros H.
  assert (Hs : songs (hook (snd (searchSongs query env w))) = []).
  { destruct H as [[e H] | (q & st & err & Hq & Hr)].
    - apply (failure_caught env _ e w) in H as [_ H].
      change (searchSongs query) with (run (SearchSongs query)).
      rewrite H. reflexivity.
    - unfold_ops. use_answers. split_cases; reflexivity. }
  split; [exact Hs |].
  intros typed selected. apply no_songs_no_cards. exact Hs.
Qed.

Lemma failed_search_clears_songs_witness :
  songs (hook Sample.after_search) = [Sample.song]
  /\ songs (hook (snd (searchSongs (lit "Queen") Sample.offline Sample.after_search))) = [].
Proof.
  split; [reflexivity |].
  apply (failed_search_clears_songs Sample.offline (lit "Queen") Sample.after_search).
  left. exists (ErrorInstance (lit "Failed to fetch")).
  eapply search_transport; [reflexivity | apply network_failure].
Defined.

(** ** The search page *)

Lemma trimStart_nil_iff (s : str) :
  trimStart s = [] <-> forallb is_white_space s = true.
Proof.
  induction s as [| c r IH]; cbn; [tauto |].
  destruct (is_white_space c); cbn; [exact IH | split; discriminate].
Qed.

Lemma trimStart_head (s : str) (c : N) (r : str) :
  trimStart s = c :: r -> is_white_space c = false.
Proof.
  induction s as [| d s IH]; cbn; [discriminate |].
  destruct (is_white_space d) eqn:E; [exact IH |].
  intros [= <- <-]. exact E.
Qed.

(** The strings that [trim] empties are those made of white space only. *)
Lemma trim_nil_iff (s : str) :
  trim s = [] <-> forallb is_white_space s = true.
Proof.
  unfold trim, trimEnd. split.
  - intros H. apply trimStart_nil_iff.
    destruct (trimStart s) as [| c r] eqn:E; [reflexivity | exfalso].
    apply trimStart_head in E.
    apply (f_equal (@rev N)) in H. rewrite rev_involutive in H. cbn in H.
    apply trimStart_nil_iff in H.
    rewrite forallb_app in H. cbn in H. rewrite E in H.
    rewrite andb_false_r in H. discriminate.
  - intros H. apply trimStart_nil_iff in H. rewrite H. reflexivity.
Qed.

(** C10. Submitting a query that [trim] empties stores the query text and
    nothing else: no operation of the hook runs and no request is sent
    (the log of the hook is as before), and [songs], [selectedSong],
    [isLoading] and [error] are as before. *)
Theorem blank_search_only_stores_the_query
    (env : environment) (q : str) (s : page_state) :
  trim q = [] ->
  fst (handleSearch q env s) = Returned ()
  /\ query (snd (handleSearch q env s)) = q
  /\ selectedSong (snd (handleSearch q env s)) = selectedSong s
  /\ trace (page_hook (snd (handleSearch q env s))) = trace (page_hook s)
  /\ songs (hook (page_hook (snd (handleSearch q env s)))) = songs (hook (page_hook s))
  /\ isLoading (hook (page_hook (snd (handleSearch q env s)))) = isLoading (hook (page_hook s))
  /\ error (hook (page_hook (snd (handleSearch q env s)))) = error (hook (page_hook s)).
Proof.
  intros H. unfold handleSearch, setQuery. unfold_monad. cbn. rewrite H. cbn.
  repeat split.
Qed.

Lemma blank_search_only_stores_the_query_witness :
  trim [0x20; 0x9; 0x3000] = []
  /\ query (snd (handleSearch [0x20; 0x9; 0x3000] Sample.server_up Sample.viewing))
     = [0x20; 0x9; 0x3000]
  /\ selectedSong (snd (handleSearch [0x20; 0x9; 0x3000] Sample.server_up Sample.viewing))
     = Some Sample.song.
Proof.
  split; [reflexivity |].
  pose proof (blank_search_only_stores_the_query Sample.server_up
                [0x20; 0x9; 0x3000] Sample.viewing eq_refl) as (_ & Hq & Hs & _).
  split; [exact Hq | exact Hs].
Defined.

(** C5. When the query is not empty, nothing is loading, there is no
    error, no song is selected and the result list is empty, the page
    shows the heading [No results found for "query"] and the grid holds
    no item, only its message. *)
Theorem empty_result_shows_no_results_found (s : page_state) :
  query s <> [] ->
  isLoading (hook (page_hook s)) = false ->
  error (hook (page_hook s)) = None ->
  selectedSong s = None ->
  songs (hook (page_hook s)) = [] ->
  heading (SearchPage s)
    = Some (lit "No results found for " ++ quote ++ query s ++ quote)
  /\ grid_items (grid (SearchPage s)) = []
  /\ grid (SearchPage s)
     = Some (EmptyMessage (lit "No songs found. Try another search term.")).
Proof.
  intros Hq Hl He Hs Hr. unfold SearchPage, SongGrid.
  rewrite Hl, He, Hs, Hr. cbn.
  destruct (query s); [contradiction | cbn; auto].
Qed.

(** A search that is answered with an empty suggestions array ends in
    that state. *)
Lemma empty_search_reaches_the_state
    (env : environment) (q u st : str) (err : option str) (s : page_state) :
  trim q <> [] ->
  encodeURIComponent q = Some u ->
  fetch_search env (search_request u)
    = Resolves (Response true st (Json (SearchValue (SuggestionsArray []) err))) ->
  query (snd (handleSearch q env s)) = q
  /\ q <> []
  /\ isLoading (hook (page_hook (snd (handleSearch q env s)))) = false
  /\ error (hook (page_hook (snd (handleSearch q env s)))) = None
  /\ selectedSong (snd (handleSearch q env s)) = None
  /\ songs (hook (page_hook (snd (handleSearch q env s)))) = [].
Proof.
  intros Ht Hu Hr.
  assert (Hq : q <> []) by (intros ->; apply Ht; reflexivity).
  unfold handleSearch, setQuery, setSelectedSong, zoom.
  destruct (trim q) eqn:E; [contradiction |].
  unfold_ops. use_answers. repeat split; assumption.
Qed.

Lemma empty_result_shows_no_results_found_witness :
  query Sample.nothing_found = lit "zzzz"
  /\ songs (hook (page_hook Sample.nothing_found)) = []
  /\ heading (SearchPage Sample.nothing_found)
    = Some (lit "No results found for " ++ quote ++ lit "zzzz" ++ quote)
  /\ grid_items (grid (SearchPage Sample.nothing_found)) = [].
Proof.
  pose proof (empty_result_shows_no_results_found Sample.nothing_found)
    as H.
  destruct H as (Hh & Hg & _);
    [discriminate | reflexivity | reflexivity | reflexivity | reflexivity |].
  split; [reflexivity |]. split; [reflexivity |].
  split; [exact Hh | exact Hg].
Defined.

(** The step of each action on the view. *)
Lemma perform_view (env : environment) (a : action) (s : page_state) :
  view_of (snd (perform a env s))
  = match a with
    | Submit q => if truthy (trim q) then browsing else view_of s
    | ClickCard _ => viewingSong
    | PressBack => browsing
    end.
Proof.
  destruct a; cbn; [| reflexivity | reflexivity].
  unfold handleSearch, setQuery, setSelectedSong, zoom. unfold_monad. cbn.
  destruct (truthy (trim q)); cbn; [| reflexivity].
  destruct (searchSongs q env (page_hook s)) as [[] ?]; reflexivity.
Qed.

(** C6, as amended. The view is [browsing] or [viewingSong], and these are
    its transitions: a click on a card, which only the grid of the browsing
    view offers, moves to [viewingSong]; the back arrow, which only the
    lyrics panel offers, moves to [browsing]; a submitted search whose query
    is not blank moves to [browsing] from either view; a blank search leaves
    the view as it is. *)
Theorem view_transitions
    (env : environment) (s : page_state) (a : action) (s' : page_state) :
  step env s a s' ->
  match a with
  | ClickCard _ => view_of s = browsing /\ view_of s' = viewingSong
  | PressBack => view_of s = viewingSong /\ view_of s' = browsing
  | Submit q =>
      if truthy (trim q) then view_of s' = browsing else view_of s' = view_of s
  end.
Proof.
  intros [Hoff <-]. rewrite perform_view.
  destruct a as [q | song |]; cbn in Hoff.
  - destruct (truthy (trim q)); reflexivity.
  - split; [| reflexivity].
    unfold view_of, SearchPage in *. destruct (selectedSong s); [destruct Hoff | reflexivity].
  - split; [| reflexivity].
    unfold view_of, SearchPage in *. cbn in Hoff.
    destruct (selectedSong s); [reflexivity | destruct Hoff; discriminate].
Qed.

Lemma view_transitions_witness :
  step Sample.server_up Sample.viewing PressBack
    (snd (perform PressBack Sample.server_up Sample.viewing))
  /\ view_of Sample.viewing = viewingSong
  /\ view_of (snd (perform PressBack Sample.server_up Sample.viewing)) = browsing.
Proof.
  assert (H : step Sample.server_up Sample.viewing PressBack
                (snd (perform PressBack Sample.server_up Sample.viewing))).
  { split; [cbn; eexists; reflexivity | reflexivity]. }
  split; [exact H |].
  exact (view_transitions Sample.server_up Sample.viewing PressBack _ H).
Defined.

(** C6, as stated, fails: while a song is on screen the search form is
    still there, and a search leaves the song view without the back action. *)
Lemma search_leaves_the_song_view :
  step Sample.server_up Sample.viewing (Submit (lit "Queen"))
    (snd (perform (Submit (lit "Queen")) Sample.server_up Sample.viewing))
  /\ view_of Sample.viewing = viewingSong
  /\ view_of (snd (perform (Submit (lit "Queen")) Sample.server_up Sample.viewing))
     = browsing.
Proof.
  repeat split.
Qed.

(** ** The lyrics panel *)

Lemma count_app (p : event -> bool) (a b : list event) :
  count p (a ++ b) = (count p a + count p b)%nat.
Proof.
  unfold count. rewrite List.filter_app, length_app. reflexivity.
Qed.

(** What [getLyrics] adds to the log: its own invocation, then no other
    invocation and at most one request. *)
Lemma getLyrics_log (env : environment) (song : ISong.t) (w : world) :
  exists rest,
    trace (snd (getLyrics song env w)) = trace w ++ Invoked (GetLyrics song) :: rest
    /\ count is_getLyrics rest = 0%nat
    /\ count is_analyzeLyrics rest = 0%nat
    /\ (count is_fetch rest <= 1)%nat.
Proof.
  unfold_ops; split_cases; rewrite <- ?app_assoc; cbn;
    eexists; (split; [reflexivity |]); unfold count; cbn; repeat split; lia.
Qed.

(** What [analyzeLyrics] adds to the log, and that it leaves [lyrics]. *)
Lemma analyzeLyrics_log (env : environment) (song : ISong.t) (text : str) (w : world) :
  lyrics (hook (snd (analyzeLyrics song text env w))) = lyrics (hook w)
  /\ exists rest,
       trace (snd (analyzeLyrics song text env w))
         = trace w ++ Invoked (AnalyzeLyrics song text) :: rest
       /\ count is_getLyrics rest = 0%nat
       /\ count is_analyzeLyrics rest = 0%nat.
Proof.
  unfold_ops; split_cases; rewrite <- ?app_assoc; cbn;
    (split; [reflexivity |]);
    eexists; (split; [reflexivity |]); unfold count; cbn; split; reflexivity.
Qed.

Lemma same_value_refl (v : nullable str) : same_value v v = true.
Proof.
  destruct v; cbn; [reflexivity | reflexivity | apply bool_decide_eq_true_2; reflexivity].
Qed.

(** A render that finds [lyrics] as the render before runs no effect. *)
Lemma rerender_same (renders : nat) (song : ISong.t) (previous : nullable str)
    (env : environment) (s : lyrics_state) :
  previous = lyrics (hook (lyrics_hook s)) ->
  rerender renders song previous env s = (Returned (), s).
Proof.
  intros ->. destruct renders; cbn; [reflexivity |].
  unfold_monad. rewrite same_value_refl. reflexivity.
Qed.

Lemma fetchLyrics_runs_getLyrics (env : environment) (song : ISong.t) (s : lyrics_state) :
  fetchLyrics song env s
  = (Returned (),
     {| lyrics_hook := snd (getLyrics song env (lyrics_hook s));
        isLyricsLoading := false;
        isAnalysisLoading := isAnalysisLoading s |}).
Proof.
  unfold fetchLyrics, setIsLyricsLoading, zoom. unfold_monad. cbn.
  pose proof (run_returns env (GetLyrics song) (lyrics_hook s)) as H. cbn in H.
  destruct (getLyrics song env (lyrics_hook s)) as [r w]. cbn in *. subst r.
  reflexivity.
Qed.

Lemma fetchAnalysis_runs_analyzeLyrics
    (env : environment) (song : ISong.t) (rendered : nullable str) (s : lyrics_state) :
  fetchAnalysis song rendered env s
  = (Returned (),
     match rendered with
     | Value (c :: text) =>
         {| lyrics_hook := snd (analyzeLyrics song (c :: text) env (lyrics_hook s));
            isLyricsLoading := isLyricsLoading s;
            isAnalysisLoading := false |}
     | _ => s
     end).
Proof.
  destruct rendered as [| | [| c text]]; try reflexivity.
  unfold fetchAnalysis, setIsAnalysisLoading, zoom. unfold_monad. cbn.
  pose proof (run_returns env (AnalyzeLyrics song (c :: text)) (lyrics_hook s)) as H.
  cbn in H.
  destruct (analyzeLyrics song (c :: text) env (lyrics_hook s)) as [r w].
  cbn in *. subst r. reflexivity.
Qed.

(** The panel after a selection, in terms of the two operations: the log and
    the state are those of [getLyrics] run on a fresh hook, followed, when
    there was a render after it and it left a non-empty string in [lyrics],
    by [analyzeLyrics] on that string. *)
Lemma Lyrics_unfolds (env : environment) (renders : nat) (song : ISong.t)
    (s0 : lyrics_state) :
  let w1 := snd (getLyrics song env initial_world) in
  Lyrics renders song env s0
  = (Returned (),
     match renders, lyrics (hook w1) with
     | S _, Value (c :: text) =>
         {| lyrics_hook := snd (analyzeLyrics song (c :: text) env w1);
            isLyricsLoading := false;
            isAnalysisLoading := false |}
     | _, _ =>
         {| lyrics_hook := w1; isLyricsLoading := false; isAnalysisLoading := false |}
     end).
Proof.
  intros w1. unfold Lyrics.
  change (lyrics initial_hook_state) with (@Null str).
  unfold mbind at 1 2 3. unfold M_bind, bind, modify.
  rewrite fetchLyrics_runs_getLyrics. cbn [lyrics_hook initial_lyrics_state isAnalysisLoading].
  fold w1. rewrite fetchAnalysis_runs_analyzeLyrics.
  destruct renders as [| renders]; [destruct (lyrics (hook w1)) as [| | [|]]; reflexivity |].
  cbn [rerender]. unfold_monad. cbn [lyrics_hook same_value].
  destruct (lyrics (hook w1)) as [| | [| c text]] eqn:E.
  - rewrite fetchAnalysis_runs_analyzeLyrics.
    rewrite rerender_same; [reflexivity | cbn; congruence].
  - reflexivity.
  - rewrite fetchAnalysis_runs_analyzeLyrics.
    rewrite rerender_same; [reflexivity | cbn; congruence].
  - rewrite fetchAnalysis_runs_analyzeLyrics.
    rewrite rerender_same; [reflexivity |].
    cbn. symmetry. rewrite <- E. apply analyzeLyrics_log.
Qed.

(** C2. When the lyrics fetch of a selected song fails (the network fails,
    the status is not 2xx, or any other failure raised in [getLyrics]), the
    panel ends with [error] holding the message, a string, and
    [analyzeLyrics] is not invoked for that selection. *)
Theorem failed_lyrics_fetch_stops_the_analysis
    (env : environment) (renders : nat) (song : ISong.t) (e : thrown)
    (s0 : lyrics_state) :
  failure env (GetLyrics song) e ->
  error (hook (lyrics_hook (snd (Lyrics renders song env s0))))
    = Some (message_of e (fallback (GetLyrics song)))
  /\ count is_analyzeLyrics (trace (lyrics_hook (snd (Lyrics renders song env s0)))) = 0%nat.
Proof.
  intros H. rewrite Lyrics_unfolds. cbn [snd].
  destruct (failure_caught env _ e initial_world H) as [_ Hst]. cbn [run] in Hst.
  destruct (getLyrics_log env song initial_world) as (rest & Ht & _ & Ha & _).
  rewrite Hst. cbn [after_failure lyrics initial_world hook initial_hook_state].
  assert (Hsame : forall A (x : A), match renders with O => x | S _ => x end = x)
    by (intros; destruct renders; reflexivity).
  rewrite Hsame. cbn [lyrics_hook]. rewrite Hst, Ht. split; [reflexivity |].
  cbn [trace initial_world app]. exact Ha.
Qed.

Lemma failed_lyrics_fetch_stops_the_analysis_witness :
  failure Sample.offline (GetLyrics Sample.song) (ErrorInstance (lit "Failed to fetch"))
  /\ error (hook (lyrics_hook
        (snd (Lyrics 3 Sample.song Sample.offline initial_lyrics_state))))
     = Some (lit "Failed to fetch")
  /\ count is_analyzeLyrics (trace (lyrics_hook
        (snd (Lyrics 3 Sample.song Sample.offline initial_lyrics_state)))) = 0%nat.
Proof.
  assert (H : failure Sample.offline (GetLyrics Sample.song)
                (ErrorInstance (lit "Failed to fetch"))).
  { eapply lyrics_transport; [reflexivity | reflexivity | apply network_failure]. }
  split; [exact H |].
  exact (failed_lyrics_fetch_stops_the_analysis Sample.offline 3 Sample.song _
           initial_lyrics_state H).
Defined.

(** C3, as amended. A selection invokes [getLyrics] exactly once; once the
    panel has rendered again, [analyzeLyrics] has been invoked exactly once
    when the fetched [lyrics] is a string that is not empty, and not at all
    otherwise. *)
Theorem one_lyrics_fetch_then_one_analysis
    (env : environment) (renders : nat) (song : ISong.t) (s0 : lyrics_state) :
  (1 <= renders)%nat ->
  count is_getLyrics (trace (lyrics_hook (snd (Lyrics renders song env s0)))) = 1%nat
  /\ count is_analyzeLyrics (trace (lyrics_hook (snd (Lyrics renders song env s0))))
     = (if truthy_lyrics (lyrics (hook (lyrics_hook (snd (Lyrics renders song env s0)))))
        then 1 else 0)%nat.
Proof.
  intros Hr. rewrite Lyrics_unfolds. cbn [snd].
  destruct renders as [| renders]; [lia |].
  destruct (getLyrics_log env song initial_world) as (rest & Ht & Hg & Ha & _).
  cbn [trace initial_world app] in Ht.
  destruct (lyrics (hook (snd (getLyrics song env initial_world))))
    as [| | [| c text]] eqn:E; cbn [lyrics_hook].
  - rewrite E, Ht. change (Invoked (GetLyrics song) :: rest)
      with ([Invoked (GetLyrics song)] ++ rest).
    rewrite !count_app, Hg, Ha. split; reflexivity.
  - rewrite E, Ht. change (Invoked (GetLyrics song) :: rest)
      with ([Invoked (GetLyrics song)] ++ rest).
    rewrite !count_app, Hg, Ha. split; reflexivity.
  - rewrite E, Ht. change (Invoked (GetLyrics song) :: rest)
      with ([Invoked (GetLyrics song)] ++ rest).
    rewrite !count_app, Hg, Ha. split; reflexivity.
  - destruct (analyzeLyrics_log env song (c :: text)
                (snd (getLyrics song env initial_world)))
      as (Hl & rest' & Ht' & Hg' & Ha').
    rewrite Hl, E, Ht', Ht.
    change (Invoked (GetLyrics song) :: rest)
      with ([Invoked (GetLyrics song)] ++ rest).
    change (Invoked (AnalyzeLyrics song (c :: text)) :: rest')
      with ([Invoked (AnalyzeLyrics song (c :: text))] ++ rest').
    rewrite !count_app, Hg, Ha, Hg', Ha'. split; reflexivity.
Qed.

Lemma one_lyrics_fetch_then_one_analysis_witness :
  lyrics (hook (lyrics_hook
    (snd (Lyrics 2 Sample.song Sample.server_up initial_lyrics_state))))
    = Value (lit "Is this the real life?")
  /\ count is_getLyrics (trace (lyrics_hook
       (snd (Lyrics 2 Sample.song Sample.server_up initial_lyrics_state)))) = 1%nat
  /\ count is_analyzeLyrics (trace (lyrics_hook
       (snd (Lyrics 2 Sample.song Sample.server_up initial_lyrics_state)))) = 1%nat.
Proof.
  split; [reflexivity |].
  exact (one_lyrics_fetch_then_one_analysis Sample.server_up 2 Sample.song
           initial_lyrics_state ltac:(lia)).
Defined.

(** C3, as stated, fails: the lyrics service may answer with the empty
    string, which is not [null]; the second effect tests [if (lyrics)], so
    no analysis is requested, however often the panel renders. *)
Lemma empty_lyrics_are_not_analysed :
  fetch_lyrics Sample.instrumental (lyrics_request (lit "Queen") (lit "Bohemian%20Rhapsody"))
    = Resolves (Response true (lit "OK") (Json (LyricsValue (Value []))))
  /\ lyrics (hook (lyrics_hook
       (snd (Lyrics 3 Sample.song Sample.instrumental initial_lyrics_state))))
     = Value []
  /\ lyrics (hook (lyrics_hook
       (snd (Lyrics 3 Sample.song Sample.instrumental initial_lyrics_state))))
     <> Null
  /\ count is_analyzeLyrics (trace (lyrics_hook
       (snd (Lyrics 3 Sample.song Sample.instrumental initial_lyrics_state)))) = 0%nat.
Proof.
  repeat split. discriminate.
Qed.

(** ** The analysis cache *)

Section Cache.
Import Backend.
Variable ttl : N.
Variable ai : nat -> analyze_body -> ai_reply.

(** A read of a live entry yields its value. *)
Lemma cache_get_live (now : N) (k : list N * list N)
    (c : gmap (list N * list N) entry) (e : entry) :
  c !! k = Some e -> now < expires e -> cache_get now k c = Some (value e).
Proof.
  intros Hk Hlt. unfold cache_get. rewrite Hk.
  apply N.ltb_lt in Hlt. rewrite Hlt. reflexivity.
Qed.

(** An entry that a read at [now] does not find is not live later. *)
Lemma cache_get_none_later (now later : N) (k : list N * list N)
    (c : gmap (list N * list N) entry) :
  cache_get now k c = None -> now <= later -> ~ live later k c.
Proof.
  unfold cache_get. intros Hget Hle (e & Hk & Hlt). rewrite Hk in Hget.
  destruct (now <? expires e) eqn:E; [discriminate |].
  apply N.ltb_ge in E. lia.
Qed.

(** An entry stored on a miss at [now] is live until [now + ttl]. *)
Lemma stored_entry_is_live (now later : N) (req : analyze_body) (s : server)
    (a : ILyricsAnalysis.t) :
  cache_get now (key_of req) (cache s) = None ->
  ai (ai_calls s) req = Analysis a ->
  later < now + ttl ->
  live later (key_of req) (cache (snd (analyze ttl ai now req s))).
Proof.
  intros Hmiss Hai Hlt. unfold analyze. rewrite Hmiss, Hai. cbn.
  eexists. rewrite lookup_insert_eq. split; [reflexivity | exact Hlt].
Qed.

(** A hit answers from the cache and leaves the server as it is. *)
Lemma analyze_hit (now : N) (req : analyze_body) (s : server)
    (a : ILyricsAnalysis.t) :
  cache_get now (key_of req) (cache s) = Some a ->
  analyze ttl ai now req s = (Ok200 a, s).
Proof.
  intros Hget. unfold analyze. rewrite Hget. reflexivity.
Qed.

(** While the entry that the first request read or stored is live, a
    second request for the same key gets the reply of the first and leaves
    the server as it was. *)
Lemma live_entry_is_served
    (first second : N) (req : analyze_body) (s : server) :
  first <= second ->
  live second (key_of req) (cache (snd (analyze ttl ai first req s))) ->
  (exists a, fst (analyze ttl ai first req s) = Ok200 a)
  /\ analyze ttl ai second req (snd (analyze ttl ai first req s))
     = (fst (analyze ttl ai first req s), snd (analyze ttl ai first req s)).
Proof.
  intros Hle Hlive.
  assert (Hshape : exists a,
             fst (analyze ttl ai first req s) = Ok200 a
             /\ cache_get second (key_of req)
                  (cache (snd (analyze ttl ai first req s))) = Some a).
  { unfold analyze in *.
    destruct (cache_get first (key_of req) (cache s)) as [a |] eqn:Hget.
    - exists a. split; [reflexivity |]. cbn in *.
      destruct Hlive as (e & Hk & Hlt).
      rewrite (cache_get_live _ _ _ e Hk Hlt).
      unfold cache_get in Hget. rewrite Hk in Hget.
      destruct (first <? expires e); congruence.
    - destruct (ai (ai_calls s) req) as [a | message]; cbn in *.
      + exists a. split; [reflexivity |].
        destruct Hlive as (e & Hk & Hlt).
        rewrite (cache_get_live _ _ _ e Hk Hlt).
        rewrite lookup_insert_eq in Hk. injection Hk as <-. reflexivity.
      + exfalso. exact (cache_get_none_later _ _ _ _ Hget Hle Hlive). }
  destruct Hshape as (a & Hfst & Hget).
  split; [exists a; exact Hfst |].
  rewrite (analyze_hit _ _ _ a Hget), Hfst. reflexivity.
Qed.

End Cache.



(** * Further properties of the code *)

(** ** The hook: what an operation writes and what it leaves *)

(** X2. Each operation writes its own part of the state only:
    [searchSongs] leaves [lyrics] and [lyricsAnalysis], [getLyrics] leaves
    [songs] and [lyricsAnalysis], [analyzeLyrics] leaves [songs] and
    [lyrics], on success and on failure alike. *)
Theorem operations_leave_the_other_fields
    (env : environment) (op : operation) (w : world) :
  match op with
  | SearchSongs _ =>
      lyrics (hook (snd (run op env w))) = lyrics (hook w)
      /\ lyricsAnalysis (hook (snd (run op env w))) = lyricsAnalysis (hook w)
  | GetLyrics _ =>
      songs (hook (snd (run op env w))) = songs (hook w)
      /\ lyricsAnalysis (hook (snd (run op env w))) = lyricsAnalysis (hook w)
  | AnalyzeLyrics _ _ =>
      songs (hook (snd (run op env w))) = songs (hook w)
      /\ lyrics (hook (snd (run op env w))) = lyrics (hook w)
  end.
Proof.
  destruct op; unfold_ops; split_cases; split; reflexivity.
Qed.

Lemma requests_app (a b : list event) :
  requests (a ++ b) = requests a ++ requests b.
Proof.
  induction a as [| e a IH]; cbn; [reflexivity |].
  destruct e; cbn; rewrite IH; reflexivity.
Qed.

(** The requests in the log of an operation. *)
Lemma run_requests (env : environment) (op : operation) (w : world) :
  requests (trace (snd (run op env w))) = requests (trace w) ++ requests_of op.
Proof.
  destruct op; unfold requests_of; unfold_ops; split_cases;
    rewrite ?requests_app; cbn; rewrite ?app_nil_r; reflexivity.
Qed.

(** X3. An operation sends at most one request, and which one is fixed by
    its arguments: the GET of the encoded query, the GET of the encoded
    artist and title, the POST of title, artist and lyrics. When an
    argument does not encode, nothing is sent; [analyzeLyrics] always
    sends. *)
Theorem each_operation_sends_its_request
    (env : environment) (op : operation) (w : world) :
  requests (trace (snd (run op env w))) = requests (trace w) ++ requests_of op
  /\ match op with
     | AnalyzeLyrics _ _ => length (requests_of op) = 1%nat
     | SearchSongs _ | GetLyrics _ => (length (requests_of op) <= 1)%nat
     end.
Proof.
  split; [apply run_requests |].
  destruct op; cbn; repeat case_match; cbn; lia.
Qed.

(** X4. What a 2xx search answer does to [error]: with a suggestions array
    the [error] field of the body is dropped; without one it is shown when
    it is a non-empty string, and [error] stays [null] otherwise. *)
Theorem search_answer_error_field
    (env : environment) (query q st : str) (suggestions : suggestions_field)
    (err : option str) (w : world) :
  encodeURIComponent query = Some q ->
  fetch_search env (search_request q)
    = Resolves (Response true st (Json (SearchValue suggestions err))) ->
  error (hook (snd (searchSongs query env w)))
  = match suggestions with
    | SuggestionsArray _ => None
    | SuggestionsOther => if truthy_error err then err else None
    end.
Proof.
  intros Hq Hr. unfold_ops. use_answers.
  destruct suggestions; split_cases; reflexivity.
Qed.

Lemma search_answer_error_field_witness :
  error (hook (snd (searchSongs (lit "Queen") Fixture.search_refused initial_world)))
  = Some (lit "quota exceeded").
Proof.
  exact (search_answer_error_field Fixture.search_refused (lit "Queen") (lit "Queen")
           (lit "OK") SuggestionsOther (Some (lit "quota exceeded")) initial_world
           eq_refl eq_refl).
Defined.

(** ** The address of a request *)

Lemma hex_digit_unreserved (n : N) :
  n < 16 -> is_uri_unreserved (hex_digit n) = true.
Proof.
  intros H. destruct n as [| p]; [reflexivity |].
  do 4 (try destruct p as [p | p |]); try reflexivity; lia.
Qed.

Lemma percent_safe (octet : N) : octet < 256 -> Forall url_safe (percent octet).
Proof.
  intros H. unfold percent.
  constructor; [right; reflexivity |].
  constructor;
    [left; apply hex_digit_unreserved; apply N.Div0.div_lt_upper_bound; lia |].
  constructor;
    [left; apply hex_digit_unreserved; apply N.mod_upper_bound; lia |].
  constructor.
Qed.

Lemma utf8_octets (cp : N) : cp < 0x110000 -> Forall (fun o => o < 256) (utf8 cp).
Proof.
  intros H. unfold utf8.
  assert (H64 : forall x, x mod 0x40 < 0x40) by (intros; apply N.mod_upper_bound; lia).
  destruct (cp <? 0x80) eqn:E1; [apply N.ltb_lt in E1; repeat constructor; lia |].
  destruct (cp <? 0x800) eqn:E2.
  { apply N.ltb_lt in E2.
    assert (cp / 0x40 < 0x20) by (apply N.Div0.div_lt_upper_bound; lia).
    pose proof (H64 cp). repeat constructor; lia. }
  destruct (cp <? 0x10000) eqn:E3.
  { apply N.ltb_lt in E3.
    assert (cp / 0x1000 < 0x10) by (apply N.Div0.div_lt_upper_bound; lia).
    pose proof (H64 cp). pose proof (H64 (cp / 0x40)). repeat constructor; lia. }
  assert (cp / 0x40000 < 0x8) by (apply N.Div0.div_lt_upper_bound; lia).
  pose proof (H64 cp). pose proof (H64 (cp / 0x40)). pose proof (H64 (cp / 0x1000)).
  repeat constructor; lia.
Qed.

Lemma escape_safe (cp : N) : cp < 0x110000 -> Forall url_safe (escape cp).
Proof.
  intros H. unfold escape. apply Forall_bind.
  eapply Forall_impl; [apply utf8_octets; exact H |].
  intros o Ho. apply percent_safe. exact Ho.
Qed.

Lemma code_point_bound (lead trail : N) :
  is_lead_surrogate lead = true -> is_trail_surrogate trail = true ->
  code_point lead trail < 0x110000.
Proof.
  unfold is_lead_surrogate, is_trail_surrogate, in_range, code_point.
  intros [H1 H2]%andb_true_iff [H3 H4]%andb_true_iff.
  apply N.leb_le in H1, H2, H3, H4. lia.
Qed.

(** The code units of a string are below [0x10000], checked by running. *)
Lemma code_units_checked (s : str) :
  forallb (fun c => c <? 0x10000) s = true -> Forall (fun c => c < 0x10000) s.
Proof.
  intros H. apply List.Forall_forall. intros c Hc.
  apply N.ltb_lt. revert c Hc. apply forallb_forall. exact H.
Qed.

(** What [encodeURIComponent] returns is made of unreserved characters
    and percent escapes. *)
Lemma encodeURIComponent_safe (n : nat) (s u : str) :
  (length s <= n)%nat ->
  Forall (fun c => c < 0x10000) s ->
  encodeURIComponent s = Some u ->
  Forall url_safe u.
Proof.
  revert s u. induction n as [| n IH]; intros s u Hn Hs He.
  - destruct s; [| cbn in Hn; lia]. injection He as <-. constructor.
  - destruct s as [| c r]; [injection He as <-; constructor |].
    cbn in Hn. inversion Hs as [| ? ? Hc Hr]; subst. cbn [encodeURIComponent] in He.
    destruct (is_uri_unreserved c) eqn:Eu.
    { destruct (encodeURIComponent r) as [e |] eqn:Er; [| discriminate].
      injection He as <-. constructor; [left; exact Eu |].
      apply (IH r e); [lia | exact Hr | exact Er]. }
    destruct (is_lead_surrogate c) eqn:El.
    { destruct r as [| d r']; [discriminate |].
      destruct (is_trail_surrogate d) eqn:Et; [| discriminate].
      destruct (encodeURIComponent r') as [e |] eqn:Er; [| discriminate].
      injection He as <-. apply Forall_app. split.
      - apply escape_safe, code_point_bound; assumption.
      - inversion Hr; subst. apply (IH r' e); [cbn in Hn; lia | assumption | exact Er]. }
    destruct (is_trail_surrogate c); [discriminate |].
    destruct (encodeURIComponent r) as [e |] eqn:Er; [| discriminate].
    injection He as <-. apply Forall_app. split.
    + apply escape_safe. lia.
    + apply (IH r e); [lia | exact Hr | exact Er].
Qed.

(** A string without surrogate halves always encodes. *)
Lemma encodeURIComponent_total (s : str) :
  Forall no_surrogate s -> exists u, encodeURIComponent s = Some u.
Proof.
  induction 1 as [| c r [Hl Ht] _ [u IH]]; [exists []; reflexivity |].
  cbn [encodeURIComponent]. rewrite IH, Hl, Ht.
  destruct (is_uri_unreserved c); eexists; reflexivity.
Qed.

(** X5. The text of the query cannot leave its parameter: a search either
    sends nothing or sends one GET whose address is the fixed prefix
    followed by unreserved characters and percent escapes only, so no [&],
    [=], [#], [/] or space of the query reaches the address as it is. *)
Theorem typed_query_stays_in_its_parameter
    (env : environment) (query : str) (w : world) :
  Forall (fun c => c < 0x10000) query ->
  requests (trace (snd (searchSongs query env w))) = requests (trace w)
  \/ exists u,
       requests (trace (snd (searchSongs query env w)))
         = requests (trace w) ++ [search_request u]
       /\ url (search_request u)
          = lit "http://localhost:8000/api/song/search?query=" ++ u
       /\ Forall url_safe u.
Proof.
  intros Hq.
  destruct (encodeURIComponent query) as [u |] eqn:E.
  - right. exists u.
    pose proof (encodeURIComponent_safe _ _ _ (le_n _) Hq E) as Hsafe.
    split; [| split; [reflexivity | exact Hsafe]].
    change (searchSongs query) with (run (SearchSongs query)).
    rewrite run_requests. cbn. rewrite E. reflexivity.
  - left. change (searchSongs query) with (run (SearchSongs query)).
    rewrite run_requests. cbn. rewrite E. apply app_nil_r.
Qed.

Lemma typed_query_stays_in_its_parameter_witness :
  requests (trace (snd (searchSongs (lit "a&b=c #d") Sample.server_up initial_world)))
  = [search_request (lit "a%26b%3Dc%20%23d")].
Proof.
  assert (Hq : Forall (fun c => c < 0x10000) (lit "a&b=c #d"))
    by (apply code_units_checked; vm_compute; reflexivity).
  destruct (typed_query_stays_in_its_parameter Sample.server_up (lit "a&b=c #d")
              initial_world Hq) as [H | (u & H & _)].
  - vm_compute in H. discriminate H.
  - vm_compute. reflexivity.
Defined.

(** X6. A query without surrogate code units is always sent: the search
    issues exactly one request, whatever the query holds besides. *)
Theorem query_without_surrogates_is_sent
    (env : environment) (query : str) (w : world) :
  Forall no_surrogate query ->
  exists u,
    encodeURIComponent query = Some u
    /\ requests (trace (snd (searchSongs query env w)))
       = requests (trace w) ++ [search_request u].
Proof.
  intros Hq. destruct (encodeURIComponent_total query Hq) as [u E].
  exists u. split; [exact E |].
  change (searchSongs query) with (run (SearchSongs query)).
  rewrite run_requests. cbn. rewrite E. reflexivity.
Qed.

Lemma query_without_surrogates_is_sent_witness :
  exists u,
    encodeURIComponent [0x4D; 0xF6; 0x74; 0x20AC] = Some u
    /\ requests (trace (snd (searchSongs [0x4D; 0xF6; 0x74; 0x20AC] Sample.offline
                               initial_world)))
       = requests (trace initial_world) ++ [search_request u].
Proof.
  apply (query_without_surrogates_is_sent Sample.offline [0x4D; 0xF6; 0x74; 0x20AC]
           initial_world).
  repeat constructor.
Defined.

(** ** The id of a song *)

Lemma hyphen_splits_once (t1 t2 a1 a2 : str) :
  ~ In 45 t1 -> ~ In 45 t2 ->
  t1 ++ 45 :: a1 = t2 ++ 45 :: a2 -> t1 = t2 /\ a1 = a2.
Proof.
  revert t2. induction t1 as [| c t1 IH]; intros [| d t2] H1 H2 E; cbn in *.
  - injection E as ->. auto.
  - injection E as <- _. exfalso. apply H2. left. reflexivity.
  - injection E as -> _. exfalso. apply H1. left. reflexivity.
  - injection E as -> E. destruct (IH t2) as [-> ->]; auto.
Qed.

(** X7. The id [title + "-" + artist] tells two suggestions apart as long
    as their titles hold no hyphen: with equal ids they have the same
    title and the same artist. *)
Theorem id_identifies_hyphen_free_titles (a b : ISuggestionItem.t) :
  ~ In 45 (ISuggestionItem.title a) ->
  ~ In 45 (ISuggestionItem.title b) ->
  ISong.id (toSong a) = ISong.id (toSong b) ->
  ISuggestionItem.title a = ISuggestionItem.title b
  /\ ISuggestionItem.artist a = ISuggestionItem.artist b.
Proof.
  intros Ha Hb E. cbn in E. change (lit "-") with [45] in E. cbn in E.
  exact (hyphen_splits_once _ _ _ _ Ha Hb E).
Qed.

Lemma id_identifies_hyphen_free_titles_witness :
  ISuggestionItem.title Sample.bohemian = ISuggestionItem.title Fixture.remaster
  /\ ISuggestionItem.artist Sample.bohemian = ISuggestionItem.artist Fixture.remaster.
Proof.
  apply (id_identifies_hyphen_free_titles Sample.bohemian Fixture.remaster).
  - vm_compute. intuition discriminate.
  - vm_compute. intuition discriminate.
  - reflexivity.
Defined.

(** With a hyphen in a title the id is no longer unique: two suggestions
    that differ in title and artist get the same id, and so the same key
    in the grid. *)
Lemma id_collides_across_a_hyphen :
  ISuggestionItem.title Fixture.hyphen_in_title
    <> ISuggestionItem.title Fixture.hyphen_in_artist
  /\ ISong.id (toSong Fixture.hyphen_in_title)
     = ISong.id (toSong Fixture.hyphen_in_artist).
Proof.
  split; [discriminate | reflexivity].
Qed.

(** ** The search page, continued *)

(** The page after a search whose query is not blank. *)
Lemma handleSearch_nonblank (env : environment) (q : str) (s : page_state) :
  trim q <> [] ->
  handleSearch q env s
  = (Returned (),
     {| query := q; selectedSong := None;
        page_hook := snd (searchSongs q env (page_hook s)) |}).
Proof.
  intros Ht. unfold handleSearch, setQuery, setSelectedSong, zoom.
  destruct (trim q) eqn:Eq; [contradiction |]. unfold_monad. cbn.
  pose proof (run_returns env (SearchSongs q) (page_hook s)) as Hr. cbn in Hr.
  destruct (searchSongs q env (page_hook s)) as [r w]. cbn in *. subst r.
  reflexivity.
Qed.

(** X8. A search whose query is not blank runs as typed: the query is
    stored and sent untrimmed, the selection is cleared, the hook is left
    as [searchSongs] of that very query leaves it, and at most the one
    request of that search is sent. *)
Theorem nonblank_search_runs_as_typed
    (env : environment) (q : str) (s : page_state) :
  trim q <> [] ->
  fst (handleSearch q env s) = Returned ()
  /\ query (snd (handleSearch q env s)) = q
  /\ selectedSong (snd (handleSearch q env s)) = None
  /\ page_hook (snd (handleSearch q env s)) = snd (searchSongs q env (page_hook s))
  /\ requests (trace (page_hook (snd (handleSearch q env s))))
     = requests (trace (page_hook s)) ++ requests_of (SearchSongs q).
Proof.
  intros Ht. rewrite (handleSearch_nonblank env q s Ht). cbn. repeat split.
  change (searchSongs q) with (run (SearchSongs q)). apply run_requests.
Qed.

Lemma nonblank_search_runs_as_typed_witness :
  requests (trace (page_hook
    (snd (handleSearch (lit " Queen ") Sample.server_up initial_page_state))))
  = [search_request (lit "%20Queen%20")].
Proof.
  destruct (nonblank_search_runs_as_typed Sample.server_up (lit " Queen ")
              initial_page_state) as (_ & _ & _ & _ & H).
  - discriminate.
  - rewrite H. reflexivity.
Defined.

(** X9. A blank submit is not without effect on the screen: the heading
    is computed from the new query text over the old results. A submit of
    white space relabels the results on screen as results for that white
    space; a submit of the empty string removes the heading; the grid stays
    as it was. *)
Theorem blank_search_relabels_the_results
    (env : environment) (q : str) (s : page_state) :
  trim q = [] ->
  isLoading (hook (page_hook s)) = false ->
  error (hook (page_hook s)) = None ->
  selectedSong s = None ->
  songs (hook (page_hook s)) <> [] ->
  heading (SearchPage (snd (handleSearch q env s)))
    = (if truthy q then Some (lit "Results for " ++ quote ++ q ++ quote) else None)
  /\ grid (SearchPage (snd (handleSearch q env s))) = grid (SearchPage s)
  /\ grid_items (grid (SearchPage s)) = songs (hook (page_hook s)).
Proof.
  intros Ht Hl He Hs Hr.
  unfold handleSearch, setQuery. unfold_monad. cbn. rewrite Ht. cbn.
  unfold SearchPage, SongGrid. cbn. rewrite Hl, He, Hs. cbn.
  destruct (songs (hook (page_hook s))) as [| x l]; [contradiction |].
  cbn. destruct (truthy q); repeat split.
Qed.

Lemma blank_search_relabels_the_results_witness :
  heading (SearchPage Fixture.results)
    = Some (lit "Results for " ++ quote ++ lit "Queen" ++ quote)
  /\ heading (SearchPage (snd (handleSearch (lit "  ") Sample.server_up Fixture.results)))
     = Some (lit "Results for " ++ quote ++ lit "  " ++ quote).
Proof.
  split; [reflexivity |].
  destruct (blank_search_relabels_the_results Sample.server_up (lit "  ")
              Fixture.results) as (H & _);
    [reflexivity | reflexivity | reflexivity | reflexivity | discriminate |].
  exact H.
Defined.

(** X10. What the page shows together: either the grid or the lyrics
    panel, never both and never neither; a heading only when there is no
    status line (no error, nothing loading) and no panel. *)
Theorem page_layout_is_exclusive (s : page_state) :
  ((grid (SearchPage s) = None /\ lyrics_panel (SearchPage s) <> None)
   \/ (grid (SearchPage s) <> None /\ lyrics_panel (SearchPage s) = None))
  /\ (heading (SearchPage s) = None
      \/ (status (SearchPage s) = None /\ lyrics_panel (SearchPage s) = None)).
Proof.
  unfold SearchPage, SearchStatus. cbn.
  destruct (selectedSong s), (isLoading (hook (page_hook s))),
    (truthy_error (error (hook (page_hook s)))), (truthy (query s)); cbn;
    (split; [first [left; split; [reflexivity | discriminate]
                   | right; split; [discriminate | reflexivity]]
            | first [left; reflexivity | right; split; reflexivity]]).
Qed.

Lemma nonblank_is_truthy (q : str) : trim q <> [] -> truthy q = true.
Proof.
  destruct q; [intros H; exfalso; apply H; reflexivity | reflexivity].
Qed.



(** X12. A click opens the clicked song and nothing else: the selected
    song is the song of the card, which is one of the results of the hook;
    the hook and the query are untouched, so no request is sent; the page
    then shows the panel of that song, no grid and no heading. *)
Theorem click_opens_the_clicked_song
    (env : environment) (s : page_state) (song : ISong.t) (s' : page_state) :
  step env s (ClickCard song) s' ->
  selectedSong s' = Some song
  /\ In song (songs (hook (page_hook s)))
  /\ page_hook s' = page_hook s
  /\ query s' = query s
  /\ lyrics_panel (SearchPage s') = Some song
  /\ grid (SearchPage s') = None
  /\ heading (SearchPage s') = None.
Proof.
  intros [Hoff <-]. cbn in Hoff.
  assert (Hin : In song (songs (hook (page_hook s)))).
  { unfold SearchPage, SongGrid in Hoff. cbn in Hoff.
    destruct (selectedSong s); [destruct Hoff |].
    destruct (isLoading (hook (page_hook s))); [destruct Hoff |].
    destruct (songs (hook (page_hook s))); [destruct Hoff | exact Hoff]. }
  destruct song as [i t a c]. cbn.
  repeat split; try assumption.
  unfold SearchPage. cbn. rewrite !andb_false_r. reflexivity.
Qed.

Lemma click_opens_the_clicked_song_witness :
  step Sample.server_up Fixture.results (ClickCard Sample.song)
    (snd (perform (ClickCard Sample.song) Sample.server_up Fixture.results))
  /\ selectedSong (snd (perform (ClickCard Sample.song) Sample.server_up Fixture.results))
     = Some Sample.song.
Proof.
  assert (H : step Sample.server_up Fixture.results (ClickCard Sample.song)
                (snd (perform (ClickCard Sample.song) Sample.server_up Fixture.results))).
  { split; [left; reflexivity | reflexivity]. }
  split; [exact H |].
  exact (proj1 (click_opens_the_clicked_song Sample.server_up Fixture.results
                  Sample.song _ H)).
Defined.

(** What a search adds to the log: its own invocation and no other. *)
Lemma searchSongs_log (env : environment) (query : str) (w : world) :
  exists rest,
    trace (snd (searchSongs query env w)) = trace w ++ Invoked (SearchSongs query) :: rest
    /\ count is_searchSongs rest = 0%nat.
Proof.
  unfold_ops; split_cases; rewrite <- ?app_assoc; cbn;
    eexists; (split; [reflexivity |]); unfold count; cbn; reflexivity.
Qed.

(** X13. A submit runs a search exactly when the query holds a code unit
    that is not white space, and then exactly one. *)
Theorem search_runs_iff_something_is_typed
    (env : environment) (q : str) (s : page_state) :
  count is_searchSongs (trace (page_hook (snd (handleSearch q env s))))
  = (count is_searchSongs (trace (page_hook s))
     + if forallb is_white_space q then 0 else 1)%nat.
Proof.
  destruct (forallb is_white_space q) eqn:E.
  - apply trim_nil_iff in E.
    unfold handleSearch, setQuery. unfold_monad. cbn. rewrite E. cbn. lia.
  - assert (Ht : trim q <> []).
    { intros H. apply trim_nil_iff in H. congruence. }
    rewrite (handleSearch_nonblank env q s Ht). cbn.
    destruct (searchSongs_log env q (page_hook s)) as (rest & -> & Hrest).
    change (Invoked (SearchSongs q) :: rest) with ([Invoked (SearchSongs q)] ++ rest).
    rewrite !count_app, Hrest. reflexivity.
Qed.

(** ** The lyrics panel, continued *)

Lemma run_not_loading (env : environment) (op : operation) (w : world) :
  isLoading (hook (snd (run op env w))) = false.
Proof.
  destruct op; unfold_ops; split_cases; reflexivity.
Qed.

(** The state after lyrics arrived. *)
Lemma getLyrics_ok (env : environment) (song : ISong.t) (a t st : str)
    (v : nullable str) (w : world) :
  encodeURIComponent (ISong.artist song) = Some a ->
  encodeURIComponent (ISong.title song) = Some t ->
  fetch_lyrics env (lyrics_request a t)
    = Resolves (Response true st (Json (LyricsValue v))) ->
  hook (snd (getLyrics song env w))
  = {| songs := songs (hook w); lyrics := v;
       lyricsAnalysis := lyricsAnalysis (hook w);
       isLoading := false; error := None |}.
Proof.
  intros Ha Ht Hr. unfold_ops. use_answers. reflexivity.
Qed.

(** The state after an analysis arrived. *)
Lemma analyzeLyrics_ok (env : environment) (song : ISong.t) (text st : str)
    (an : analysis_data) (w : world) :
  fetch_analyze env (analyze_request song text)
    = Resolves (Response true st (Json an)) ->
  hook (snd (analyzeLyrics song text env w))
  = {| songs := songs (hook w); lyrics := lyrics (hook w);
       lyricsAnalysis := an; isLoading := false; error := None |}.
Proof.
  intros Hr. unfold_ops. use_answers. reflexivity.
Qed.

(** X15. Once the panel has rendered again, more renders change nothing:
    no effect runs a second time, so a selection cannot loop on requests. *)
Theorem panel_is_quiescent_after_one_render
    (env : environment) (renders : nat) (song : ISong.t) (s0 : lyrics_state) :
  (1 <= renders)%nat ->
  Lyrics renders song env s0 = Lyrics 1 song env s0.
Proof.
  intros H. rewrite !Lyrics_unfolds.
  destruct renders as [| renders]; [lia | reflexivity].
Qed.

Lemma panel_is_quiescent_after_one_render_witness :
  Lyrics 7 Sample.song Sample.server_up initial_lyrics_state
  = Lyrics 1 Sample.song Sample.server_up initial_lyrics_state.
Proof.
  apply (panel_is_quiescent_after_one_render Sample.server_up 7 Sample.song
           initial_lyrics_state).
  lia.
Defined.

(** X16. A failed lyrics fetch on screen: the error box holds the message
    (it is absent for an empty message), the lyrics column says
    [No lyrics available] and the analysis column [No analysis available]. *)
Theorem failed_lyrics_fetch_on_screen
    (env : environment) (renders : nat) (song : ISong.t) (e : thrown)
    (s0 : lyrics_state) :
  failure env (GetLyrics song) e ->
  Lyrics_view song (snd (Lyrics renders song env s0))
  = {| panel_title := ISong.title song;
       panel_artist := ISong.artist song;
       error_box :=
         if truthy (message_of e (fallback (GetLyrics song)))
         then Some (message_of e (fallback (GetLyrics song))) else None;
       lyrics_shown := LyricsText (lit "No lyrics available");
       analysis_shown := NoAnalysis |}.
Proof.
  intros Hf. rewrite Lyrics_unfolds. cbn [snd].
  destruct (failure_caught env _ e initial_world Hf) as [_ Hh]. cbn [run] in Hh.
  rewrite Hh. cbn [after_failure lyrics initial_world hook initial_hook_state].
  unfold Lyrics_view.
  destruct renders; cbn [lyrics_hook isLyricsLoading isAnalysisLoading];
    rewrite Hh; cbn; reflexivity.
Qed.

Lemma failed_lyrics_fetch_on_screen_witness :
  error_box (Lyrics_view Sample.song
    (snd (Lyrics 2 Sample.song Sample.offline initial_lyrics_state)))
  = Some (lit "Failed to fetch").
Proof.
  assert (Hf : failure Sample.offline (GetLyrics Sample.song)
                 (ErrorInstance (lit "Failed to fetch"))).
  { eapply lyrics_transport; [reflexivity | reflexivity | apply network_failure]. }
  rewrite (failed_lyrics_fetch_on_screen Sample.offline 2 Sample.song _
             initial_lyrics_state Hf).
  reflexivity.
Defined.

(** X17. A selection that goes well: the lyrics are fetched for the
    artist and title of the song, the analysis is then requested for that
    song and for the very text that was fetched, in this order and nothing
    else; the panel shows the text and the analysis, with the sentence for
    an empty list of countries, and no error. *)
Theorem selection_fetches_then_analyses
    (env : environment) (renders : nat) (song : ISong.t) (a t st st' text : str)
    (an : analysis_data) (s0 : lyrics_state) :
  (1 <= renders)%nat ->
  encodeURIComponent (ISong.artist song) = Some a ->
  encodeURIComponent (ISong.title song) = Some t ->
  fetch_lyrics env (lyrics_request a t)
    = Resolves (Response true st (Json (LyricsValue (Value text)))) ->
  text <> [] ->
  fetch_analyze env (analyze_request song text)
    = Resolves (Response true st' (Json an)) ->
  requests (trace (lyrics_hook (snd (Lyrics renders song env s0))))
    = [lyrics_request a t; analyze_request song text]
  /\ Lyrics_view song (snd (Lyrics renders song env s0))
     = {| panel_title := ISong.title song;
          panel_artist := ISong.artist song;
          error_box := None;
          lyrics_shown := LyricsText text;
          analysis_shown :=
            match an with
            | Some r =>
                AnalysisShown (ILyricsAnalysis.summary r)
                  match ILyricsAnalysis.countries_mentioned r with
                  | [] => NoCountries
                  | c :: l => CountryList (c :: l)
                  end
            | None => NoAnalysis
            end |}.
Proof.
  intros Hn Ha Ht Hl Htext Han.
  rewrite Lyrics_unfolds. cbn [snd].
  destruct renders as [| renders]; [lia |].
  pose proof (getLyrics_ok env song a t st (Value text) initial_world Ha Ht Hl) as H1.
  pose proof (run_requests env (GetLyrics song) initial_world) as R1.
  cbn [run requests_of] in R1. rewrite Ha, Ht in R1. cbn in R1.
  rewrite H1. cbn [lyrics]. destruct text as [| c text]; [contradiction |].
  pose proof (analyzeLyrics_ok env song (c :: text) st' an
                (snd (getLyrics song env initial_world)) Han) as H2.
  pose proof (run_requests env (AnalyzeLyrics song (c :: text))
                (snd (getLyrics song env initial_world))) as R2.
  cbn [run requests_of] in R2. rewrite R1 in R2. cbn in R2.
  split; [exact R2 |].
  unfold Lyrics_view. cbn [lyrics_hook isLyricsLoading isAnalysisLoading].
  rewrite H2, H1. cbn.
  destruct an as [[summary [| x l]] |]; reflexivity.
Qed.

Lemma selection_fetches_then_analyses_witness :
  requests (trace (lyrics_hook
    (snd (Lyrics 1 Sample.song Sample.server_up initial_lyrics_state))))
  = [lyrics_request (lit "Queen") (lit "Bohemian%20Rhapsody");
     analyze_request Sample.song (lit "Is this the real life?")]
  /\ analysis_shown (Lyrics_view Sample.song
       (snd (Lyrics 1 Sample.song Sample.server_up initial_lyrics_state)))
     = AnalysisShown (lit "A confession.") NoCountries.
Proof.
  destruct (selection_fetches_then_analyses Sample.server_up 1 Sample.song
              (lit "Queen") (lit "Bohemian%20Rhapsody") (lit "OK") (lit "OK")
              (lit "Is this the real life?") (Some Sample.analysis)
              initial_lyrics_state) as [Hr Hv];
    [lia | reflexivity | reflexivity | reflexivity | discriminate | reflexivity |].
  split; [exact Hr | rewrite Hv; reflexivity].
Defined.

(** X18. When the lyrics arrive and the analysis fails, the lyrics stay on
    screen: the panel shows the fetched text, the message of the failed
    analysis in the error box, and [No analysis available]. *)
Theorem failed_analysis_keeps_the_lyrics
    (env : environment) (renders : nat) (song : ISong.t) (a t st text : str)
    (e : thrown) (s0 : lyrics_state) :
  (1 <= renders)%nat ->
  encodeURIComponent (ISong.artist song) = Some a ->
  encodeURIComponent (ISong.title song) = Some t ->
  fetch_lyrics env (lyrics_request a t)
    = Resolves (Response true st (Json (LyricsValue (Value text)))) ->
  text <> [] ->
  failure env (AnalyzeLyrics song text) e ->
  Lyrics_view song (snd (Lyrics renders song env s0))
  = {| panel_title := ISong.title song;
       panel_artist := ISong.artist song;
       error_box :=
         if truthy (message_of e (fallback (AnalyzeLyrics song text)))
         then Some (message_of e (fallback (AnalyzeLyrics song text))) else None;
       lyrics_shown := LyricsText text;
       analysis_shown := NoAnalysis |}.
Proof.
  intros Hn Ha Ht Hl Htext Hf.
  rewrite Lyrics_unfolds. cbn [snd].
  destruct renders as [| renders]; [lia |].
  pose proof (getLyrics_ok env song a t st (Value text) initial_world Ha Ht Hl) as H1.
  rewrite H1. cbn [lyrics]. destruct text as [| c text]; [contradiction |].
  destruct (failure_caught env _ e (snd (getLyrics song env initial_world)) Hf)
    as [_ H2]. cbn [run] in H2.
  unfold Lyrics_view. cbn [lyrics_hook isLyricsLoading isAnalysisLoading].
  rewrite H2, H1. cbn. reflexivity.
Qed.

Lemma failed_analysis_keeps_the_lyrics_witness :
  Lyrics_view Sample.song
    (snd (Lyrics 1 Sample.song Fixture.analysis_down initial_lyrics_state))
  = {| panel_title := lit "Bohemian Rhapsody";
       panel_artist := lit "Queen";
       error_box := Some (lit "Error: Bad Gateway");
       lyrics_shown := LyricsText (lit "Is this the real life?");
       analysis_shown := NoAnalysis |}.
Proof.
  assert (Hf : failure Fixture.analysis_down
                 (AnalyzeLyrics Sample.song (lit "Is this the real life?"))
                 (ErrorInstance (lit "Error: " ++ lit "Bad Gateway"))).
  { apply analyze_transport. apply bad_status. }
  rewrite (failed_analysis_keeps_the_lyrics Fixture.analysis_down 1 Sample.song
             (lit "Queen") (lit "Bohemian%20Rhapsody") (lit "OK")
             (lit "Is this the real life?") _ initial_lyrics_state
             ltac:(lia) eq_refl eq_refl eq_refl ltac:(discriminate) Hf).
  reflexivity.
Defined.

(** X19. When the lyrics service answers without a text ([lyrics] absent,
    [null] or the empty string), the selection sends the lyrics request and
    no other, and the panel says [No lyrics available] and
    [No analysis available] without an error. *)
Theorem missing_lyrics_on_screen
    (env : environment) (renders : nat) (song : ISong.t) (a t st : str)
    (v : nullable str) (s0 : lyrics_state) :
  encodeURIComponent (ISong.artist song) = Some a ->
  encodeURIComponent (ISong.title song) = Some t ->
  fetch_lyrics env (lyrics_request a t)
    = Resolves (Response true st (Json (LyricsValue v))) ->
  truthy_lyrics v = false ->
  requests (trace (lyrics_hook (snd (Lyrics renders song env s0))))
    = [lyrics_request a t]
  /\ Lyrics_view song (snd (Lyrics renders song env s0))
     = {| panel_title := ISong.title song;
          panel_artist := ISong.artist song;
          error_box := None;
          lyrics_shown := LyricsText (lit "No lyrics available");
          analysis_shown := NoAnalysis |}.
Proof.
  intros Ha Ht Hl Hv.
  rewrite Lyrics_unfolds. cbn [snd].
  pose proof (getLyrics_ok env song a t st v initial_world Ha Ht Hl) as H1.
  pose proof (run_requests env (GetLyrics song) initial_world) as R1.
  cbn [run requests_of] in R1. rewrite Ha, Ht in R1. cbn in R1.
  rewrite H1. cbn [lyrics].
  destruct renders, v as [| | [| c text]]; try discriminate Hv;
    cbn [lyrics_hook];
    (split; [exact R1 |]);
    unfold Lyrics_view; cbn [lyrics_hook isLyricsLoading isAnalysisLoading];
    rewrite H1; reflexivity.
Qed.

Lemma missing_lyrics_on_screen_witness :
  requests (trace (lyrics_hook
    (snd (Lyrics 3 Sample.song Sample.instrumental initial_lyrics_state))))
  = [lyrics_request (lit "Queen") (lit "Bohemian%20Rhapsody")]
  /\ lyrics_shown (Lyrics_view Sample.song
       (snd (Lyrics 3 Sample.song Sample.instrumental initial_lyrics_state)))
     = LyricsText (lit "No lyrics available").
Proof.
  destruct (missing_lyrics_on_screen Sample.instrumental 3 Sample.song
              (lit "Queen") (lit "Bohemian%20Rhapsody") (lit "OK") (Value [])
              initial_lyrics_state eq_refl eq_refl eq_refl eq_refl) as [Hr Hv].
  split; [exact Hr | rewrite Hv; reflexivity].
Defined.

(** ** The card *)

(** X20. From suggestion to card: the card of a suggestion shows a cover
    image exactly when the suggestion has a [cover_url] that is not the
    empty string; the image then has that address and the alternative text
    [title by artist]; otherwise the card shows the music icon. The card
    is titled with the title and the artist of the suggestion. *)
Theorem card_shows_the_cover_when_there_is_one (item : ISuggestionItem.t) :
  SongCard (toSong item)
  = {| cover :=
         match ISuggestionItem.cover_url item with
         | Some (c :: u) =>
             CoverImage (c :: u)
               (ISuggestionItem.title item ++ lit " by " ++ ISuggestionItem.artist item)
         | Some [] | None => MusicIcon
         end;
       card_title := ISuggestionItem.title item;
       card_artist := ISuggestionItem.artist item |}.
Proof.
  destruct item as [t a al pv [[| c u] |]]; reflexivity.
Qed.

(** ** Requests and results, end to end *)

(** X21. Artist and title cannot leave their parameters either: a lyrics
    fetch sends nothing, or one GET whose address is the fixed prefix, the
    encoded artist, [&track_name=] and the encoded title, both made of
    unreserved characters and percent escapes only. *)
Theorem artist_and_title_stay_in_their_parameters
    (env : environment) (song : ISong.t) (w : world) :
  Forall (fun c => c < 0x10000) (ISong.artist song) ->
  Forall (fun c => c < 0x10000) (ISong.title song) ->
  requests (trace (snd (getLyrics song env w))) = requests (trace w)
  \/ exists a t,
       requests (trace (snd (getLyrics song env w)))
         = requests (trace w) ++ [lyrics_request a t]
       /\ url (lyrics_request a t)
          = lit "http://localhost:8000/api/song/lyrics?artist_name=" ++ a
            ++ lit "&track_name=" ++ t
       /\ Forall url_safe a
       /\ Forall url_safe t.
Proof.
  intros Hart Htit.
  change (getLyrics song) with (run (GetLyrics song)). rewrite run_requests.
  cbn [requests_of].
  destruct (encodeURIComponent (ISong.artist song)) as [a |] eqn:Ea;
    [| left; apply app_nil_r].
  destruct (encodeURIComponent (ISong.title song)) as [t |] eqn:Et;
    [| left; apply app_nil_r].
  right. exists a, t. split; [reflexivity |]. split; [reflexivity |].
  split.
  - exact (encodeURIComponent_safe _ _ _ (le_n _) Hart Ea).
  - exact (encodeURIComponent_safe _ _ _ (le_n _) Htit Et).
Qed.

Lemma artist_and_title_stay_in_their_parameters_witness :
  requests (trace (snd (getLyrics Sample.song Sample.server_up initial_world)))
  = [lyrics_request (lit "Queen") (lit "Bohemian%20Rhapsody")].
Proof.
  assert (Ha : Forall (fun c => c < 0x10000) (ISong.artist Sample.song))
    by (apply code_units_checked; vm_compute; reflexivity).
  assert (Ht : Forall (fun c => c < 0x10000) (ISong.title Sample.song))
    by (apply code_units_checked; vm_compute; reflexivity).
  destruct (artist_and_title_stay_in_their_parameters Sample.server_up Sample.song
              initial_world Ha Ht) as [H | (a & t & H & _)].
  - vm_compute in H. discriminate H.
  - vm_compute. reflexivity.
Defined.



(** X23. While the hook is loading nothing can be clicked: in place of the
    cards the grid shows the skeleton (there is no grid next to a lyrics
    panel), even when the hook still holds the songs of an earlier search;
    the status line shows its spinner, and there is no heading. *)
Theorem nothing_to_click_while_loading (s : page_state) (song : ISong.t) :
  isLoading (hook (page_hook s)) = true ->
  grid (SearchPage s)
    = match selectedSong s with
      | Some _ => None
      | None => Some Skeleton
      end
  /\ ~ offered (SearchPage s) (ClickCard song)
  /\ grid_items (grid (SearchPage s)) = []
  /\ heading (SearchPage s) = None
  /\ (exists shown,
        status (SearchPage s) = Some {| searching := true; shown_error := shown |}).
Proof.
  intros Hl. unfold offered, SearchPage, SearchStatus, SongGrid. cbn. rewrite Hl. cbn.
  rewrite andb_false_r. cbn.
  destruct (selectedSong s); cbn; repeat split; eauto.
Qed.

Lemma nothing_to_click_while_loading_witness :
  songs (hook (page_hook Fixture.searching_again)) = [Sample.song]
  /\ grid (SearchPage Fixture.searching_again) = Some Skeleton
  /\ grid_items (grid (SearchPage Fixture.searching_again)) = [].
Proof.
  split; [reflexivity |].
  destruct (nothing_to_click_while_loading Fixture.searching_again Sample.song eq_refl)
    as (Hg & _ & Hi & _).
  split; [exact Hg | exact Hi].
Defined.

(** X24. What a selection never sends: every request of the panel is the
    GET of the lyrics or a POST for the selected song, carrying its title
    and artist and, as lyrics, the non-empty text that the hook holds;
    there is at most one request of each kind. *)
Theorem panel_requests_are_for_the_selected_song
    (env : environment) (renders : nat) (song : ISong.t) (s0 : lyrics_state) :
  exists posts,
    requests (trace (lyrics_hook (snd (Lyrics renders song env s0))))
      = requests_of (GetLyrics song) ++ posts
    /\ (posts = []
        \/ exists text,
             posts = [analyze_request song text]
             /\ text <> []
             /\ lyrics (hook (lyrics_hook (snd (Lyrics renders song env s0))))
                = Value text).
Proof.
  rewrite Lyrics_unfolds. cbn [snd].
  pose proof (run_requests env (GetLyrics song) initial_world) as R1.
  cbn [run] in R1. change (requests (trace initial_world)) with (@nil request) in R1.
  rewrite app_nil_l in R1.
  destruct renders as [| renders];
    destruct (lyrics (hook (snd (getLyrics song env initial_world))))
      as [| | [| c text]] eqn:E; cbn [lyrics_hook];
    try (exists []; rewrite app_nil_r; split; [exact R1 | left; reflexivity]).
  exists [analyze_request song (c :: text)].
  pose proof (run_requests env (AnalyzeLyrics song (c :: text))
                (snd (getLyrics song env initial_world))) as R2.
  cbn [run requests_of] in R2. rewrite R1 in R2.
  split; [exact R2 |]. right. exists (c :: text).
  split; [reflexivity |]. split; [discriminate |].
  destruct (analyzeLyrics_log env song (c :: text)
              (snd (getLyrics song env initial_world))) as [Hl _].
  rewrite Hl. exact E.
Qed.

(** The case of a response, with its fields in the open. *)
Ltac open_responses :=
  repeat match goal with
         | r : response _ |- _ => destruct r as [? ? ?]; cbn in *
         end;
  simplify_eq;
  repeat match goal with
         | H : negb ?b = _ |- _ => destruct b; cbn in H; try discriminate H
         end.

Ltac name_the_transport_failure :=
  match goal with
  | H : ?f _ _ = _ |- transport_failure (?f _ _) _ => rewrite H
  end;
  first [apply network_failure | apply unparseable_body | apply bad_status].

(** X25. [getLyrics] and [analyzeLyrics] end with an error exactly when a
    failure was raised in them: [error] is not [null] if and only if the
    address did not encode, the network failed, the status was not 2xx, the
    body did not parse or was [null]. *)
Theorem error_exactly_on_failure
    (env : environment) (op : operation) (w : world) :
  (forall query, op <> SearchSongs query) ->
  error (hook (snd (run op env w))) <> None <-> exists e, failure env op e.
Proof.
  intros Hop. split.
  - destruct op as [query | song | song text]; [destruct (Hop query); reflexivity | |].
    + unfold_ops. split_cases; intros Herr; try (exfalso; apply Herr; reflexivity);
        open_responses; eexists;
        first
          [ eapply lyrics_uri_error; eauto; fail
          | eapply lyrics_null_body; eauto; fail
          | eapply lyrics_transport; eauto; name_the_transport_failure ].
    + unfold_ops. split_cases; intros Herr; try (exfalso; apply Herr; reflexivity);
        open_responses; eexists; eapply analyze_transport;
        name_the_transport_failure.
  - intros [e Hf]. destruct (failure_caught env op e w Hf) as [_ Hh].
    rewrite Hh. discriminate.
Qed.

Lemma error_exactly_on_failure_witness :
  error (hook (snd (run (GetLyrics Sample.song) Sample.server_up initial_world))) = None
  /\ ~ exists e, failure Sample.server_up (GetLyrics Sample.song) e.
Proof.
  split; [reflexivity |].
  intros H.
  apply (error_exactly_on_failure Sample.server_up (GetLyrics Sample.song)
           initial_world) in H; [| discriminate].
  apply H. reflexivity.
Defined.

(** ** Operations in flight *)

(** Every case of what the environment answers, responses opened into
    their fields. *)
Ltac open_answers :=
  cbn;
  repeat match goal with
         | r : response _ |- _ => destruct r as [[] ? ?]; cbn
         | |- context [encodeURIComponent ?x] =>
             destruct (encodeURIComponent x); cbn
         | |- context [fetch_search ?e ?r] =>
             destruct (fetch_search e r) as [? | [[] ? [? | ?]]]; cbn
         | |- context [fetch_lyrics ?e ?r] =>
             destruct (fetch_lyrics e r) as [? | [[] ? [? | ?]]]; cbn
         | |- context [fetch_analyze ?e ?r] =>
             destruct (fetch_analyze e r) as [? | [[] ? [? | ?]]]; cbn
         | |- context [match ?x with _ => _ end] => is_var x; destruct x; cbn
         | |- context [truthy ?x] => is_var x; destruct x; cbn
         end.

Ltac unfold_segments :=
  unfold in_one_go, called, answered, search_parsed, lyrics_parsed,
    analysis_parsed, try_segment, caught, address, awaited, fallback in *.

(** Run without interruption, the segments of an operation are the
    operation. *)
Lemma run_in_segments (env : environment) (op : operation) (w : world) :
  run op env w
  = match op with
    | SearchSongs query =>
        in_one_go op fetch_search (search_parsed query) env w
    | GetLyrics song =>
        in_one_go op fetch_lyrics (lyrics_parsed song) env w
    | AnalyzeLyrics song text =>
        in_one_go op fetch_analyze (analysis_parsed song text) env w
    end.
Proof.
  destruct op; unfold_segments; unfold_ops; open_answers; reflexivity.
Qed.

(** What the last segment of a search leaves in [songs]. *)
Lemma search_parsed_songs (env : environment) (query : str) (b : body search_data)
    (w : world) :
  songs (hook (snd (search_parsed query b env w)))
  = match b with
    | Json (SearchValue (SuggestionsArray items) _) => toSong <$> items
    | _ => []
    end.
Proof.
  unfold_segments; unfold_ops; destruct b as [e | [| [items |] [err |]]];
    split_cases; reflexivity.
Qed.

(** X1. When the body of a search answer arrives the hook may be in any
    state, for other operations may have run while the search was awaited.
    Processing the body overwrites [songs] with the result of this search
    and lowers [isLoading], whatever they were. [error] is overwritten only
    when the search fails or the body carries an error: after a search that
    went well, an error that another operation set in the meantime stays. *)
Theorem processed_search_answer
    (env : environment) (query : str) (b : body search_data) (w : world) :
  fst (search_parsed query b env w) = Returned ()
  /\ isLoading (hook (snd (search_parsed query b env w))) = false
  /\ match b with
     | Json (SearchValue (SuggestionsArray items) _) =>
         songs (hook (snd (search_parsed query b env w))) = toSong <$> items
         /\ error (hook (snd (search_parsed query b env w))) = error (hook w)
     | Json (SearchValue SuggestionsOther err) =>
         songs (hook (snd (search_parsed query b env w))) = []
         /\ error (hook (snd (search_parsed query b env w)))
            = (if truthy_error err then err else error (hook w))
     | Json SearchNull =>
         songs (hook (snd (search_parsed query b env w))) = []
         /\ error (hook (snd (search_parsed query b env w)))
            = Some (type_error_message env)
     | JsonRejects e =>
         songs (hook (snd (search_parsed query b env w))) = []
         /\ error (hook (snd (search_parsed query b env w)))
            = Some (message_of e (fallback (SearchSongs query)))
     end.
Proof.
  unfold_segments; unfold_ops; destruct b as [e | [| [items |] [err |]]];
    split_cases; repeat split.
Qed.

(** X26. The last answer wins: of two searches in flight, the songs left
    in the hook are those of the answer that is processed last, whichever
    search was started first; an older search that is answered late
    replaces the results of a newer one. *)
Theorem last_search_answer_wins
    (env : environment) (older newer : str) (late early : body search_data)
    (w : world) :
  songs (hook (snd (search_parsed older late env
                      (snd (search_parsed newer early env w)))))
  = match late with
    | Json (SearchValue (SuggestionsArray items) _) => toSong <$> items
    | _ => []
    end.
Proof.
  apply search_parsed_songs.
Qed.

(** X27. The first segment of an operation either ends it (the address
    did not encode: [isLoading] is false again and [error] holds the
    message) or leaves it waiting for the answer of the request it has sent,
    with [isLoading] true and [error] null. The flag is one for all
    operations: when another operation ends while this one still waits,
    [isLoading] is false although a request is unanswered. *)
Theorem loading_flag_while_waiting
    (A : Type) (env : environment) (op other : operation) (e : thrown) (w : world) :
  match called op env w with
  | (Returned (Some r), w1) =>
      requests (trace w1) = requests (trace w) ++ [r]
      /\ isLoading (hook w1) = true
      /\ error (hook w1) = None
      /\ isLoading (hook (snd (answered (A := A) other (FetchRejects e) env w1)))
         = false
  | (Returned None, w1) =>
      requests (trace w1) = requests (trace w)
      /\ isLoading (hook w1) = false
      /\ error (hook w1) = Some (uri_error_message env)
  | (Threw _, _) => False
  end.
Proof.
  destruct op; unfold_segments; unfold_ops; open_answers;
    rewrite ?requests_app; cbn; rewrite ?app_nil_r; repeat split.
Qed.

Lemma effect_segment_flag {S} (lower : M lyrics_state unit)
    (segment : M world (option S)) (env : environment) (s : lyrics_state) :
  effect_segment lower segment env s
  = match segment env (lyrics_hook s) with
    | (Returned (Some waiting), w) => (Returned (Some waiting), with_lyrics_hook w s)
    | (Returned None, w) => (lower;; mret None) env (with_lyrics_hook w s)
    | (Threw e, w) => (Threw e, with_lyrics_hook w s)
    end.
Proof.
  unfold effect_segment, zoom. unfold_monad.
  destruct (segment env (lyrics_hook s)) as [[[waiting |] | e] w]; reflexivity.
Qed.

(** Run without interruption, the segments of the first effect are the
    first effect. *)
Lemma fetchLyrics_in_segments (env : environment) (song : ISong.t) (s : lyrics_state) :
  fetchLyrics song env s
  = (waiting ← fetchLyrics_called song;
     match waiting with
     | None => mret ()
     | Some r =>
         received ← fetchLyrics_answered song (fetch_lyrics env r);
         match received with
         | None => mret ()
         | Some response => fetchLyrics_parsed song (parsed response)
         end
     end) env s.
Proof.
  unfold fetchLyrics, fetchLyrics_called, fetchLyrics_answered, fetchLyrics_parsed,
    effect_segment, setIsLyricsLoading, zoom.
  unfold_segments; unfold_ops; open_answers; reflexivity.
Qed.

(** X14. The lyrics spinner follows the fetch. After the first segment of
    the first effect the spinner is on exactly when [getLyrics] waits for
    its answer, and the lyrics column then shows the loading line; the
    segment that receives the answer lowers it when the answer ends
    [getLyrics] (a rejection, a status that is not 2xx) and leaves it
    otherwise; the last segment lowers it. So an unanswered request keeps
    the spinner on, and every answer, a failure included, ends with the
    spinner off. No segment throws. *)
Theorem lyrics_spinner_follows_the_fetch
    (env : environment) (song : ISong.t) (answer : fetched lyrics_data)
    (b : body lyrics_data) (s : lyrics_state) :
  match fetchLyrics_called song env s with
  | (Returned (Some _), s') =>
      isLyricsLoading s' = true
      /\ lyrics_shown (Lyrics_view song s') = LoadingLyrics
  | (Returned None, s') => isLyricsLoading s' = false
  | (Threw _, _) => False
  end
  /\ match fetchLyrics_answered song answer env s with
     | (Returned (Some _), s') => isLyricsLoading s' = isLyricsLoading s
     | (Returned None, s') => isLyricsLoading s' = false
     | (Threw _, _) => False
     end
  /\ fst (fetchLyrics_parsed song b env s) = Returned ()
  /\ isLyricsLoading (snd (fetchLyrics_parsed song b env s)) = false.
Proof.
  unfold fetchLyrics_called, fetchLyrics_answered, fetchLyrics_parsed,
    effect_segment, setIsLyricsLoading, zoom, Lyrics_view.
  unfold_segments; unfold_ops.
  split; [open_answers; repeat split |].
  split; [open_answers; repeat split |].
  open_answers; repeat split.
Qed.
